(** * The DeepL translation provider ([mt_provider_deepl/translator.py])

    A shallow embedding of the class [DeepLTranslator] and the properties of
    its translate / bulk-translate pipeline.

    Modelling decisions.
    - A Python [str] is a Rocq [string]; a character stands for the code point
      of the same number (0..255).  [len] counts characters.
    - Python integers that are lengths or counts are [N]; list positions are
      [nat], as [enumerate] produces them.
    - The dict [text_mapping] (position among the texts sent -> position in the
      input) and the table [supported_language_map] are [gmap]s.
    - Exceptions are values of [exn]; every constructor stands for a class
      below Python's [Exception].  An operation is a function from the state
      of the world to an outcome (returned value or raised exception) and the
      next state: the state holds the adapter object (whose [_client] field is
      filled lazily) and the list of calls that went to the remote service.
    - What the vendor library, the HTTP session and the host framework answer
      is not part of this repository: the operations take it as a record
      [Remote], and the theorems hold for every such record.
    - [logger.error] only writes to the log and is left out. *)

From Stdlib Require Import Ascii String DecimalString.
From stdpp Require Import gmap strings list fin_maps.

(** ** Python built-ins used by the adapter *)

Module Py.

(** [len(s)] *)
Definition len (s : string) : N := N.of_nat (String.length s).

(** [str(n)] for a non-negative integer, as an f-string prints it. *)
Definition str_N (n : N) : string := NilZero.string_of_uint (N.to_uint n).

(** [bool(s)]: a string is true when it is not empty. *)
Definition truthy (s : string) : bool := negb (s =? "")%string.

(** [c.isspace()] on code points below 256: TAB..CR, FS..US, space, NEL
    and the no-break space. *)
Definition is_space (c : ascii) : bool :=
  let n := N_of_ascii c in
  ((9 <=? n) && (n <=? 13) || (28 <=? n) && (n <=? 32)
   || (n =? 133) || (n =? 160))%N.

Fixpoint lstrip (s : string) : string :=
  match s with
  | EmptyString => EmptyString
  | String c s' => if is_space c then lstrip s' else s
  end.

Fixpoint rstrip (s : string) : string :=
  match s with
  | EmptyString => EmptyString
  | String c s' =>
      match rstrip s' with
      | EmptyString => if is_space c then EmptyString else String c EmptyString
      | r => String c r
      end
  end.

(** [s.strip()] *)
Definition strip (s : string) : string := rstrip (lstrip s).

(** [c.lower()] on code points below 256: A..Z and the capital letters
    of 192..222 (without the multiplication sign 215) move up by 32. *)
Definition lower_char (c : ascii) : ascii :=
  let n := N_of_ascii c in
  if ((65 <=? n) && (n <=? 90)
      || (192 <=? n) && (n <=? 222) && negb (n =? 215))%N
  then ascii_of_N (n + 32) else c.

(** [s.lower()] *)
Fixpoint lower (s : string) : string :=
  match s with
  | EmptyString => EmptyString
  | String c s' => String (lower_char c) (lower s')
  end.

(** [c in s] for a one-character [c] *)
Fixpoint contains (c : ascii) (s : string) : bool :=
  match s with
  | EmptyString => false
  | String d s' => Ascii.eqb c d || contains c s'
  end.

(** [s.split(c)[0]]: the part of [s] before the first [c] (all of [s]
    when there is none). *)
Fixpoint split_head (c : ascii) (s : string) : string :=
  match s with
  | EmptyString => EmptyString
  | String d s' => if Ascii.eqb c d then EmptyString else String d (split_head c s')
  end.

(** [s.endswith(suffix)] *)
Fixpoint endswith (s suffix : string) : bool :=
  (s =? suffix)%string ||
  match s with
  | EmptyString => false
  | String _ s' => endswith s' suffix
  end.

(** [repr(s)] of a string without quotes or escapes, as [str(KeyError(s))]
    prints a missing dict key. *)
Definition repr (s : string) : string := "'" +:+ s +:+ "'".

(** A text is empty or whitespace-only. *)
Definition whitespace_only (s : string) : bool :=
  forallb is_space (list_ascii_of_string s).

End Py.

(** ** Exceptions and outcomes *)

(** The exception classes that occur; all are subclasses of [Exception]. *)
Inductive exn : Type :=
| DeepLException (msg : string)      (* deepl.DeepLException and subclasses *)
| ClientError (msg : string)         (* aiohttp.ClientError and subclasses *)
| TranslationError (msg : string)    (* mt_providers.exceptions *)
| ConfigurationError (msg : string)  (* mt_providers.exceptions *)
| ValueError (msg : string)
| KeyError (key : string)            (* [key] is the repr of the missing key *)
| AttributeError (msg : string)
| IndexError (msg : string)
| OtherException (msg : string).     (* any other subclass of Exception *)

(** [str(e)] *)
Definition str_exn (e : exn) : string :=
  match e with
  | DeepLException m | ClientError m | TranslationError m
  | ConfigurationError m | ValueError m | AttributeError m
  | IndexError m | OtherException m => m
  | KeyError k => k
  end.

Inductive outcome (A : Type) : Type :=
| Returned (a : A)
| Raised (e : exn).
Arguments Returned {A} a.
Arguments Raised {A} e.

(** ** Data model *)

(** [mt_providers.types.TranslationConfig], the fields the adapter reads. *)
Record TranslationConfig := {
  api_key : string;
  timeout : Z;
  endpoint : option string
}.

Inductive TranslationStatus := SUCCESS | ERROR.

(** The metadata dict of a successful response; [confidence] is the
    constant 1.0 and is kept as the integer 1. *)
Record Metadata := {
  detected_language : string;
  confidence : Z;
  provider : string;
  model : string;
  billed_characters : N
}.

Record TranslationResponse := {
  translated_text : string;
  status : TranslationStatus;
  source_lang : string;
  target_lang : string;
  char_count : N;
  metadata : option Metadata;
  error : option string
}.

(** Modelled from the spec: [_create_response] is inherited from the host
    framework's [BaseTranslationProvider], which is not part of the source.
    The spec gives it as the constructor that takes
    [(translated_text, source_lang, target_lang, char_count, metadata?, error?)]
    and emits the response record, [error] being present only when the
    status is ERROR. *)
Definition _create_response (translated_text source_lang target_lang : string)
    (char_count : N) (metadata : option Metadata) (error : option string)
    : TranslationResponse :=
  {| translated_text := translated_text;
     status := match error with Some _ => ERROR | None => SUCCESS end;
     source_lang := source_lang;
     target_lang := target_lang;
     char_count := char_count;
     metadata := metadata;
     error := error |}.

(** A [deepl.Translator] handle: what it was constructed with. *)
Record Translator := {
  auth_key : string;
  server_url : string
}.

(** [deepl.TextResult] *)
Record TextResult := {
  result_text : string;
  detected_source_lang : option string
}.

(** The [text] argument and the return value of [translate_text]: one
    string or a list, one result or a list. *)
Inductive SdkText := OneText (s : string) | TextList (l : list string).
Inductive SdkResult := OneResult (r : TextResult) | ResultList (rs : list TextResult).

(** The JSON body posted to [/v2/translate] (the dict [data]). *)
Record RequestData := {
  data_text : list string;
  data_target_lang : string;
  data_source_lang : option string
}.

(** The decoded JSON answer: every key may be missing. *)
Record Translation := {
  tr_text : option string;
  tr_detected_source_language : option string
}.
Record JsonBody := {
  translations : option (list Translation)
}.

(** [deepl.Language] *)
Record Language := { code : string }.

(** Python values in the usage dict. *)
Inductive PyVal := VNone | VInt (z : Z) | VBool (b : bool).

(** [deepl.Usage] and its details; [None] is an attribute that is absent. *)
Record UsageDetail := {
  count : PyVal;
  limit : PyVal;
  limit_reached : option PyVal
}.
Record Usage := {
  character : option UsageDetail;
  document : option UsageDetail;
  team_document : option UsageDetail
}.

(** A call that left the adapter for the remote service. *)
Inductive Call :=
| CallTranslateText (c : Translator) (text : SdkText)
    (source : option string) (target : string)
| CallPost (url : string) (headers : list (string * string))
    (json : RequestData) (timeout : Z)
| CallGetSourceLanguages (c : Translator)
| CallGetTargetLanguages (c : Translator)
| CallGetUsage (c : Translator).

(** What the collaborators outside the repository answer. *)
Record Remote := {
  (* deepl.Translator(auth_key=..., server_url=...): [Some e] when the
     constructor raises [e] *)
  new_Translator : string -> string -> option exn;
  translate_text : Translator -> SdkText -> option string -> string -> outcome SdkResult;
  (* session.post(...), raise_for_status() and response.json() *)
  session_post : string -> list (string * string) -> RequestData -> Z -> outcome JsonBody;
  get_source_languages : Translator -> outcome (list Language);
  get_target_languages : Translator -> outcome (list Language);
  get_usage : Translator -> outcome Usage;
  (* BaseTranslationProvider.get_user_agent() *)
  get_user_agent : string
}.

(** The adapter object. *)
Record DeepLTranslator := {
  config : TranslationConfig;
  _client : option Translator;
  is_free_api : bool;
  base_url : string
}.

Record World := {
  self : DeepLTranslator;
  wire : list Call
}.

(** ** The monad of operations *)

Definition M (A : Type) : Type := World -> outcome A * World.

Definition ret {A} (a : A) : M A := fun w => (Returned a, w).
Definition raise {A} (e : exn) : M A := fun w => (Raised e, w).
Definition bind {A B} (m : M A) (k : A -> M B) : M B :=
  fun w =>
    match m w with
    | (Returned a, w') => k a w'
    | (Raised e, w') => (Raised e, w')
    end.
Definition lift {A} (o : outcome A) : M A := fun w => (o, w).

(** [try: body except ...: handler] *)
Definition try_except {A} (body : M A) (handler : exn -> M A) : M A :=
  fun w =>
    match body w with
    | (Returned a, w') => (Returned a, w')
    | (Raised e, w') => handler e w'
    end.

Definition get_self : M DeepLTranslator := fun w => (Returned (self w), w).
Definition set_client (c : Translator) : M unit :=
  fun w =>
    (Returned tt,
     {| self := {| config := config (self w); _client := Some c;
                   is_free_api := is_free_api (self w);
                   base_url := base_url (self w) |};
        wire := wire w |}).
(** Issue a call: it is appended to the wire, then the remote answers. *)
Definition remote_call {A} (c : Call) (answer : outcome A) : M A :=
  fun w => (answer, {| self := self w; wire := wire w ++ [c] |}).

Declare Scope m_scope.
Delimit Scope m_scope with m.
Notation "'let*' x ':=' c 'in' k" := (bind c (fun x => k))
  (at level 10, x name, c at level 100, k at level 200) : m_scope.
Open Scope m_scope.

(** [for x in l: acc = step(acc, x)], stopping at the first exception.
    No loop of the adapter talks to the remote service, so the steps are
    pure computations that may raise. *)
Fixpoint for_each {A X} (step : A -> X -> outcome A) (l : list X) (acc : A)
    : outcome A :=
  match l with
  | [] => Returned acc
  | x :: l' =>
      match step acc x with
      | Returned acc' => for_each step l' acc'
      | Raised e => Raised e
      end
  end.

(** [enumerate(l)] *)
Definition enumerate {A} (l : list A) : list (nat * A) := imap pair l.

(** ** The adapter *)

Definition max_chunk_size : N := 30000.

Definition _is_free_api_key (api_key : string) : bool :=
  Py.endswith api_key ":fx".

Definition _get_api_endpoint (is_free_api : bool) : string :=
  if is_free_api then "https://api-free.deepl.com" else "https://api.deepl.com".

(** [DeepLTranslator.__init__].  [super().__init__(config)] belongs to the
    host framework; it stores the configuration in [self.config]. *)
Definition __init__ (config : TranslationConfig) : DeepLTranslator :=
  let is_free_api := _is_free_api_key (api_key config) in
  {| config := config;
     _client := None;
     is_free_api := is_free_api;
     base_url := _get_api_endpoint is_free_api |}.

Definition _get_root_lang_code (lang_code : string) : string :=
  if Py.contains "-" lang_code
  then Py.lower (Py.split_head "-" lang_code)
  else lang_code.

Definition supported_language_map : gmap string string :=
  list_to_map
    [ ("ar", "AR"); ("bg", "BG"); ("cs", "CS"); ("da", "DA"); ("de", "DE");
      ("el", "EL"); ("en", "EN"); ("en-GB", "EN-GB"); ("en-US", "EN-US");
      ("es", "ES"); ("es-419", "ES-419"); ("et", "ET"); ("fi", "FI");
      ("fr", "FR"); ("he", "HE"); ("hu", "HU"); ("id", "ID"); ("it", "IT");
      ("ja", "JA"); ("ko", "KO"); ("lt", "LT"); ("lv", "LV"); ("nb", "NB");
      ("nl", "NL"); ("pl", "PL"); ("pt", "PT"); ("pt-BR", "PT-BR");
      ("pt-PT", "PT-PT"); ("ro", "RO"); ("ru", "RU"); ("sk", "SK");
      ("sl", "SL"); ("sv", "SV"); ("th", "TH"); ("tr", "TR"); ("uk", "UK");
      ("vi", "VI"); ("zh", "ZH"); ("zh-HANS", "ZH-HANS");
      ("zh-HANT", "ZH-HANT") ].

Global Arguments supported_language_map : simpl never.

Definition _map_language_code (lang_code : string) : outcome string :=
  match supported_language_map !! lang_code with
  | Some mapped => Returned mapped
  | None => Raised (ValueError "Unsupported Language")
  end.

(** The language block that opens every translate operation (lines 148-158,
    228-238, 323-333 and 414-424 are the same statements). *)
Definition map_source_lang (source_lang : string) : outcome (option string) :=
  if negb (source_lang =? "auto")%string then
    match _map_language_code (_get_root_lang_code source_lang) with
    | Returned mapped => Returned (Some mapped)
    | Raised e => Raised e
    end
  else Returned None.

Definition map_target_lang (target_lang : string) : outcome string :=
  match _map_language_code target_lang with
  | Returned mapped => Returned mapped
  | Raised (ValueError _) =>
      _map_language_code (_get_root_lang_code target_lang)
  | Raised e => Raised e
  end.

(** The metadata of a successful response. *)
Definition success_metadata (detected_lang : string) (billed : N) : Metadata :=
  {| detected_language := detected_lang;
     confidence := 1;
     provider := "deepl";
     model := "deepl-api";
     billed_characters := billed |}.

(** The response for an empty text, [_create_response("", source, target, 0)]. *)
Definition empty_response (source_lang target_lang : string) : TranslationResponse :=
  _create_response "" source_lang target_lang 0 None None.

(** The response of an [except] branch. *)
Definition error_response (source_lang target_lang text message : string)
    : TranslationResponse :=
  _create_response "" source_lang target_lang (Py.len text) None (Some message).

(** [result.detected_source_lang.lower() if result.detected_source_lang
    else source_lang] *)
Definition sdk_detected_lang (result : TextResult) (source_lang : string) : string :=
  match detected_source_lang result with
  | Some d => if Py.truthy d then Py.lower d else source_lang
  | None => source_lang
  end.

(** [translation.get("detected_source_language", source_lang).lower()] *)
Definition json_detected_lang (translation : Translation) (source_lang : string)
    : string :=
  match tr_detected_source_language translation with
  | Some d => Py.lower d
  | None => Py.lower source_lang
  end.

(** The filter loop of the two bulk operations (lines 214-220, 399-405). *)
Definition collect_step (acc : gmap nat nat * list string) (it : nat * string)
    : gmap nat nat * list string :=
  let '(text_mapping, valid_texts) := acc in
  let '(i, text) := it in
  if Py.truthy (Py.strip text)
  then (<[length valid_texts := i]> text_mapping, valid_texts ++ [text])
  else (text_mapping, valid_texts).

Definition collect_valid (texts : list string) : gmap nat nat * list string :=
  foldl collect_step (∅, []) (enumerate texts).

(** One round of the scatter loop: [responses[text_mapping[i]] = response],
    where [build] is the call of [_create_response] of the loop body. *)
Definition scatter_step {X} (text_mapping : gmap nat nat)
    (build : X -> nat -> outcome TranslationResponse)
    (responses : list (option TranslationResponse)) (it : nat * X)
    : outcome (list (option TranslationResponse)) :=
  let '(i, result) := it in
  match text_mapping !! i with
  | None => Raised (KeyError (Py.str_N (N.of_nat i)))
  | Some original_index =>
      match build result original_index with
      | Raised e => Raised e
      | Returned response =>
          if decide (original_index < length responses)
          then Returned (<[original_index := Some response]> responses)
          else Raised (IndexError "list assignment index out of range")
      end
  end.

(** The last loop: every position still [None] gets the empty response. *)
Definition fill_empty (source_lang target_lang : string)
    (responses : list (option TranslationResponse)) : list TranslationResponse :=
  (fun response => default (empty_response source_lang target_lang) response)
    <$> responses.

Section Adapter.

Variable R : Remote.

(** The [client] property: the vendor client is created on first use. *)
Definition client : M Translator :=
  let* s := get_self in
  match _client s with
  | Some c => ret c
  | None =>
      let endpoint :=
        match endpoint (config s) with
        | Some e => if Py.truthy e then Some e else None
        | None => None
        end in
      let url := default (base_url s) endpoint in
      match new_Translator R (api_key (config s)) url with
      | Some e => raise e
      | None =>
          let c := {| auth_key := api_key (config s); server_url := url |} in
          let* _ := set_client c in
          ret c
      end
  end.

Definition _get_headers (s : DeepLTranslator) : list (string * string) :=
  [ ("Authorization", "DeepL-Auth-Key " +:+ api_key (config s));
    ("Content-Type", "application/json");
    ("User-Agent", get_user_agent R) ].

(** [session.post(f"{self.base_url}/v2/translate", ...)] and the reading
    of the answer. *)
Definition post_translate (data : RequestData) : M JsonBody :=
  let* s := get_self in
  let url := base_url s +:+ "/v2/translate" in
  let headers := _get_headers s in
  remote_call (CallPost url headers data (timeout (config s)))
              (session_post R url headers data (timeout (config s))).

Definition too_long_message (text : string) : string :=
  "Text length (" +:+ Py.str_N (Py.len text)
    +:+ ") exceeds DeepL's maximum of " +:+ Py.str_N max_chunk_size
    +:+ " characters".

Definition translate (text source_lang target_lang : string)
    : M TranslationResponse :=
  try_except
    (if negb (Py.truthy (Py.strip text)) then
       ret (_create_response "" source_lang target_lang 0 None None)
     else if (max_chunk_size <? Py.len text)%N then
       raise (TranslationError (too_long_message text))
     else
       let* source_mapped := lift (map_source_lang source_lang) in
       let* target_mapped := lift (map_target_lang target_lang) in
       let* c := client in
       let* result :=
         remote_call (CallTranslateText c (OneText text) source_mapped target_mapped)
                     (translate_text R c (OneText text) source_mapped target_mapped) in
       match result with
       | ResultList _ =>
           raise (AttributeError
                    "'list' object has no attribute 'detected_source_lang'")
       | OneResult result =>
           let detected_lang := sdk_detected_lang result source_lang in
           ret (_create_response (result_text result) source_lang target_lang
                  (Py.len text)
                  (Some (success_metadata detected_lang (Py.len text))) None)
       end)
    (fun e =>
       match e with
       | DeepLException _ =>
           ret (error_response source_lang target_lang text
                  ("DeepL API error: " +:+ str_exn e))
       | _ => ret (error_response source_lang target_lang text (str_exn e))
       end).

(** The responses of an [except] branch of a bulk operation, one for
    every input text. *)
Definition bulk_error_responses (source_lang target_lang message : string)
    (texts : list string) : list TranslationResponse :=
  (fun text => error_response source_lang target_lang text message) <$> texts.

(** The response built for one vendor result inside the scatter loop;
    [texts[original_index]] is read while the arguments are evaluated. *)
Definition sdk_response (texts : list string) (source_lang target_lang : string)
    (result : TextResult) (original_index : nat)
    : outcome TranslationResponse :=
  let detected_lang := sdk_detected_lang result source_lang in
  match texts !! original_index with
  | None => Raised (IndexError "list index out of range")
  | Some original_text =>
      Returned
        (_create_response (result_text result) source_lang target_lang
           (Py.len original_text)
           (Some (success_metadata detected_lang (Py.len original_text))) None)
  end.

Definition bulk_translate (texts : list string) (source_lang target_lang : string)
    : M (list TranslationResponse) :=
  if decide (texts = []) then ret []
  else
    try_except
      (let '(text_mapping, valid_texts) := collect_valid texts in
       if decide (valid_texts = []) then
         ret ((fun _ => _create_response "" source_lang target_lang 0 None None)
                <$> texts)
       else
         let* source_mapped := lift (map_source_lang source_lang) in
         let* target_mapped := lift (map_target_lang target_lang) in
         let* c := client in
         let* results :=
           remote_call
             (CallTranslateText c (TextList valid_texts) source_mapped target_mapped)
             (translate_text R c (TextList valid_texts) source_mapped target_mapped) in
         let results :=
           match results with
           | ResultList rs => rs
           | OneResult r => [r]
           end in
         let responses := replicate (length texts) None in
         let* responses :=
           lift (for_each
                   (scatter_step text_mapping
                      (sdk_response texts source_lang target_lang))
                   (enumerate results) responses) in
         ret (fill_empty source_lang target_lang responses))
      (fun e =>
         match e with
         | DeepLException _ =>
             ret (bulk_error_responses source_lang target_lang
                    ("DeepL API error: " +:+ str_exn e) texts)
         | _ =>
             ret (bulk_error_responses source_lang target_lang (str_exn e) texts)
         end).

(** [data = {"text": ..., "target_lang": ...}] and
    [if source_mapped: data["source_lang"] = source_mapped]. *)
Definition request_data (texts : list string) (source_mapped : option string)
    (target_mapped : string) : RequestData :=
  {| data_text := texts;
     data_target_lang := target_mapped;
     data_source_lang :=
       match source_mapped with
       | Some m => if Py.truthy m then Some m else None
       | None => None
       end |}.

(** The response built for one entry of [result["translations"]]:
    [translation["text"]] is read first, then [texts[original_index]]. *)
Definition json_response (texts : list string) (source_lang target_lang : string)
    (translation : Translation) (original_index : nat)
    : outcome TranslationResponse :=
  let detected_lang := json_detected_lang translation source_lang in
  match tr_text translation with
  | None => Raised (KeyError (Py.repr "text"))
  | Some translated =>
      match texts !! original_index with
      | None => Raised (IndexError "list index out of range")
      | Some original_text =>
          Returned
            (_create_response translated source_lang target_lang
               (Py.len original_text)
               (Some (success_metadata detected_lang (Py.len original_text)))
               None)
      end
  end.

(** [result["translations"]] *)
Definition get_translations (result : JsonBody) : outcome (list Translation) :=
  match translations result with
  | Some l => Returned l
  | None => Raised (KeyError (Py.repr "translations"))
  end.

Definition translate_async (text source_lang target_lang : string)
    : M TranslationResponse :=
  try_except
    (if negb (Py.truthy (Py.strip text)) then
       ret (_create_response "" source_lang target_lang 0 None None)
     else if (max_chunk_size <? Py.len text)%N then
       raise (TranslationError (too_long_message text))
     else
       let* source_mapped := lift (map_source_lang source_lang) in
       let* target_mapped := lift (map_target_lang target_lang) in
       let data := request_data [text] source_mapped target_mapped in
       let* result := post_translate data in
       let* all := lift (get_translations result) in
       match all with
       | [] => raise (IndexError "list index out of range")
       | translation :: _ =>
           let detected_lang := json_detected_lang translation source_lang in
           match tr_text translation with
           | None => raise (KeyError (Py.repr "text"))
           | Some translated =>
               ret (_create_response translated source_lang target_lang
                      (Py.len text)
                      (Some (success_metadata detected_lang (Py.len text)))
                      None)
           end
       end)
    (fun e =>
       match e with
       | ClientError _ =>
           ret (error_response source_lang target_lang text
                  ("DeepL API error: " +:+ str_exn e))
       | _ => ret (error_response source_lang target_lang text (str_exn e))
       end).

Definition bulk_translate_async (texts : list string)
    (source_lang target_lang : string) : M (list TranslationResponse) :=
  if decide (texts = []) then ret []
  else
    try_except
      (let '(text_mapping, valid_texts) := collect_valid texts in
       if decide (valid_texts = []) then
         ret ((fun _ => _create_response "" source_lang target_lang 0 None None)
                <$> texts)
       else
         let* source_mapped := lift (map_source_lang source_lang) in
         let* target_mapped := lift (map_target_lang target_lang) in
         let data := request_data valid_texts source_mapped target_mapped in
         let* result := post_translate data in
         let responses := replicate (length texts) None in
         let* all := lift (get_translations result) in
         let* responses :=
           lift (for_each
                   (scatter_step text_mapping
                      (json_response texts source_lang target_lang))
                   (enumerate all) responses) in
         ret (fill_empty source_lang target_lang responses))
      (fun e =>
         match e with
         | ClientError _ =>
             ret (bulk_error_responses source_lang target_lang
                    ("DeepL API error: " +:+ str_exn e) texts)
         | _ =>
             ret (bulk_error_responses source_lang target_lang (str_exn e) texts)
         end).

(** The fallback lists of [get_supported_languages]. *)
Definition fallback_languages : gmap string (list string) :=
  {[ "source" := ["en"; "de"; "fr"; "es"; "pt"; "it"; "ru"; "ja"; "zh"; "pl";
                  "nl"; "sv"; "da"; "no"; "fi"];
     "target" := ["en-us"; "en-gb"; "de"; "fr"; "es"; "pt-pt"; "pt-br"; "it";
                  "ru"; "ja"; "zh"; "pl"; "nl"; "sv"; "da"; "no"; "fi"] ]}.

Definition get_supported_languages : M (gmap string (list string)) :=
  try_except
    (let* c := client in
     let* source_langs :=
       remote_call (CallGetSourceLanguages c) (get_source_languages R c) in
     let* c' := client in
     let* target_langs :=
       remote_call (CallGetTargetLanguages c') (get_target_languages R c') in
     ret {[ "source" := (fun lang => Py.lower (code lang)) <$> source_langs;
            "target" := (fun lang => Py.lower (code lang)) <$> target_langs ]})
    (fun _ => ret fallback_languages).

(** [usage.<field>]: an absent attribute raises. *)
Definition getattr {A} (cls name : string) (field : option A) : outcome A :=
  match field with
  | Some v => Returned v
  | None =>
      Raised (AttributeError
                ("'" +:+ cls +:+ "' object has no attribute '" +:+ name +:+ "'"))
  end.

Definition get_usage_info : M (gmap string PyVal) :=
  try_except
    (let* c := client in
     let* usage := remote_call (CallGetUsage c) (get_usage R c) in
     let* character := lift (getattr "Usage" "character" (character usage)) in
     ret {[ "character_count" := count character;
            "character_limit" := limit character;
            "character_limit_reached" :=
              default (VBool false) (limit_reached character);
            "document_count" :=
              from_option count (VInt 0) (document usage);
            "document_limit" :=
              from_option limit (VInt 0) (document usage);
            "team_document_count" :=
              from_option count (VInt 0) (team_document usage);
            "team_document_limit" :=
              from_option limit (VInt 0) (team_document usage) ]})
    (fun _ => ret ∅).

End Adapter.

(** ** What the claims are stated with *)

(** The test of the code for a text that is sent: [text.strip()] is true. *)
Definition is_sent (text : string) : bool := Py.truthy (Py.strip text).

(** A successful response for [text]. *)
Definition success_response (source_lang target_lang translated detected text : string)
    : TranslationResponse :=
  _create_response translated source_lang target_lang (Py.len text)
    (Some (success_metadata detected (Py.len text))) None.

(** The responses of a batch, read off the texts in order: every text that
    is sent takes the next result of the service (its translated text and
    the detected language), every other position (a blank text, or a sent
    text for which the service has no result left) is the empty response. *)
Fixpoint in_order_responses (source_lang target_lang : string)
    (texts : list string) (results : list (string * string))
    : list TranslationResponse :=
  match texts with
  | [] => []
  | text :: texts' =>
      if is_sent text then
        match results with
        | (translated, detected) :: results' =>
            success_response source_lang target_lang translated detected text
              :: in_order_responses source_lang target_lang texts' results'
        | [] =>
            empty_response source_lang target_lang
              :: in_order_responses source_lang target_lang texts' []
        end
      else
        empty_response source_lang target_lang
          :: in_order_responses source_lang target_lang texts' results
  end.

(** The positions of the texts that are sent, counted from [off]. *)
Fixpoint sent_indices (off : nat) (texts : list string) : list nat :=
  match texts with
  | [] => []
  | text :: texts' =>
      if is_sent text then off :: sent_indices (S off) texts'
      else sent_indices (S off) texts'
  end.

(** What the scatter loop computes, by recursion on the texts: the list
    [responses] after the loop, or the exception that stops it.  [k] is the
    number of results consumed so far and [mk] builds the response for a
    result and its text. *)
Fixpoint scatter_outcome {X} (mk : X -> string -> outcome TranslationResponse)
    (k : nat) (texts : list string) (results : list X)
    : outcome (list (option TranslationResponse)) :=
  match texts with
  | [] =>
      match results with
      | [] => Returned []
      | _ :: _ => Raised (KeyError (Py.str_N (N.of_nat k)))
      end
  | text :: texts' =>
      if is_sent text then
        match results with
        | [] => Returned (replicate (length texts) None)
        | r :: results' =>
            match mk r text with
            | Raised e => Raised e
            | Returned b =>
                match scatter_outcome mk (S k) texts' results' with
                | Returned rest => Returned (Some b :: rest)
                | Raised e => Raised e
                end
            end
        end
      else
        match scatter_outcome mk k texts' results with
        | Returned rest => Returned (None :: rest)
        | Raised e => Raised e
        end
  end.

(** ** Worlds and remote services to run the operations on *)

(** The message of the error response that [translate] and
    [bulk_translate] make of an exception. *)
Definition sync_error_message (e : exn) : string :=
  match e with
  | DeepLException _ => "DeepL API error: " +:+ str_exn e
  | _ => str_exn e
  end.

(** The translated text and the detected language of a vendor result and of
    an entry of the JSON answer. *)
Definition sdk_view (source_lang : string) (r : TextResult) : string * string :=
  (result_text r, sdk_detected_lang r source_lang).

Definition json_view (source_lang : string) (tr : Translation) : string * string :=
  (default "" (tr_text tr), json_detected_lang tr source_lang).

(** [results = [results]] unless it is a list already. *)
Definition as_list (results : SdkResult) : list TextResult :=
  match results with
  | ResultList rs => rs
  | OneResult r => [r]
  end.

Ltac run :=
  unfold try_except, bind, lift, ret, raise, remote_call, get_self in *;
  simpl in *.

(** A response that answers [text]: the empty response, an error response
    carrying the length of [text], or a translation of [text]. *)
Inductive answers (s t text : string) : TranslationResponse → Prop :=
| answers_empty : answers s t text (empty_response s t)
| answers_error message : answers s t text (error_response s t text message)
| answers_translated translated detected :
    answers s t text (success_response s t translated detected text).

(** The world right after the adapter is constructed. *)
Definition start (cfg : TranslationConfig) : World :=
  {| self := __init__ cfg; wire := [] |}.

(** A remote service that answers every text [x] with [<x>] and reports
    English as the language it detected. *)
Definition echo_result (x : string) : TextResult :=
  {| result_text := "<" +:+ x +:+ ">"; detected_source_lang := Some "EN" |}.
Definition echo_translation (x : string) : Translation :=
  {| tr_text := Some ("<" +:+ x +:+ ">");
     tr_detected_source_language := Some "EN" |}.
Definition echo_remote : Remote :=
  {| new_Translator := λ _ _, None;
     translate_text := λ _ txt _ _,
       match txt with
       | OneText x => Returned (OneResult (echo_result x))
       | TextList l => Returned (ResultList (echo_result <$> l))
       end;
     session_post := λ _ _ data _,
       Returned {| translations := Some (echo_translation <$> data_text data) |};
     get_source_languages := λ _, Returned [ {| code := "EN" |} ];
     get_target_languages := λ _, Returned [ {| code := "ES" |} ];
     get_usage := λ _,
       Returned {| character := Some {| count := VInt 12345; limit := VInt 500000;
                                        limit_reached := Some (VBool false) |};
                   document := None; team_document := None |};
     get_user_agent := "mt_providers" |}.

(** A remote service that answers every [translate_text] with the same
    list of results, whatever was sent (as the mocks of the test suite do). *)
Definition fixed_remote (results : list TextResult) : Remote :=
  {| new_Translator := new_Translator echo_remote;
     translate_text := λ _ _ _ _, Returned (ResultList results);
     session_post := session_post echo_remote;
     get_source_languages := get_source_languages echo_remote;
     get_target_languages := get_target_languages echo_remote;
     get_usage := get_usage echo_remote;
     get_user_agent := "mt_providers" |}.

(** A remote service that is out of reach: every call fails. *)
Definition failing_remote : Remote :=
  {| new_Translator := λ _ _, None;
     translate_text := λ _ _ _ _, Raised (DeepLException "Connection failed");
     session_post := λ _ _ _ _, Raised (ClientError "Connection failed");
     get_source_languages := λ _, Raised (DeepLException "Connection failed");
     get_target_languages := λ _, Raised (DeepLException "Connection failed");
     get_usage := λ _, Raised (DeepLException "Connection failed");
     get_user_agent := "mt_providers" |}.

Definition free_config : TranslationConfig :=
  {| api_key := "test-deepl-key:fx"; timeout := 30; endpoint := None |}.

(** [s * n] *)
Fixpoint times (s : string) (n : nat) : string :=
  match n with
  | O => ""
  | S n' => s +:+ times s n'
  end.

(** A vendor library that refuses an empty key when the client is
    created, and a service that rejects the request that carries one. *)
Definition strict_remote : Remote :=
  {| new_Translator := λ key _,
       if Py.truthy key then None
       else Some (ConfigurationError "API key is required");
     translate_text := translate_text echo_remote;
     session_post := λ _ headers data _,
       if bool_decide (("Authorization", "DeepL-Auth-Key ") ∈ headers)
       then Raised (ClientError "403, message='Forbidden'")
       else session_post echo_remote "" headers data 0;
     get_source_languages := get_source_languages echo_remote;
     get_target_languages := get_target_languages echo_remote;
     get_usage := get_usage echo_remote;
     get_user_agent := "mt_providers" |}.

Definition empty_key_config : TranslationConfig :=
  {| api_key := ""; timeout := 30; endpoint := None |}.

(** A configuration with an endpoint override. *)
Definition override_config : TranslationConfig :=
  {| api_key := "test-deepl-key"; timeout := 30;
     endpoint := Some "https://proxy.example.com" |}.

(** ** What the further properties are stated with *)

(** The message of the error response that [translate_async] and
    [bulk_translate_async] make of an exception. *)
Definition async_error_message (e : exn) : string :=
  match e with
  | ClientError _ => "DeepL API error: " +:+ str_exn e
  | _ => str_exn e
  end.

(** From [w] to [w'] the calls [calls] went on the wire, and the adapter
    kept its configuration and its base URL. *)
Definition grows_by (w w' : World) (calls : list Call) : Prop :=
  wire w' = wire w ++ calls ∧
  config (self w') = config (self w) ∧
  is_free_api (self w') = is_free_api (self w) ∧
  base_url (self w') = base_url (self w).

(** The vendor library answers one text and the list of that one text in
    the same way: with the same result, or with the same exception. *)
Definition same_answer (one many : outcome SdkResult) : Prop :=
  match one, many with
  | Returned (OneResult r), Returned (ResultList [r']) => r = r'
  | Raised e, Raised e' => e = e'
  | _, _ => False
  end.

(** The fields that every response of an operation called with the codes
    [s] and [t] for the text [text] has. *)
Definition well_formed_response (s t text : string) (r : TranslationResponse)
    : Prop :=
  source_lang r = s ∧ target_lang r = t ∧
  (char_count r = 0%N ∨ char_count r = Py.len text) ∧
  match status r with
  | ERROR =>
      translated_text r = "" ∧ metadata r = None ∧
      char_count r = Py.len text ∧ is_Some (error r)
  | SUCCESS =>
      error r = None ∧
      match metadata r with
      | None => translated_text r = "" ∧ char_count r = 0%N
      | Some m =>
          billed_characters m = char_count r ∧ char_count r = Py.len text ∧
          provider m = "deepl" ∧ model m = "deepl-api" ∧ confidence m = 1%Z
      end
  end.

(** The texts that a call hands to the service, and its target code. *)
Definition call_texts (c : Call) : list string :=
  match c with
  | CallTranslateText _ (OneText x) _ _ => [x]
  | CallTranslateText _ (TextList l) _ _ => l
  | CallPost _ _ json _ => data_text json
  | _ => []
  end.

Definition call_target (c : Call) : option string :=
  match c with
  | CallTranslateText _ _ _ target => Some target
  | CallPost _ _ json _ => Some (data_target_lang json)
  | _ => None
  end.

(** A translation request as the adapter means to send it: it has a text,
    none of its texts is blank, and its target code is a code of the
    table. *)
Definition well_sent (c : Call) : Prop :=
  call_texts c ≠ [] ∧
  Forall (λ x, Py.whitespace_only x = false) (call_texts c) ∧
  ∃ target k, call_target c = Some target ∧
              supported_language_map !! k = Some target.

(** ** The fault and the results of a batch *)

(** The exception that stops the scatter loop of [bulk_translate_async],
    if any: [n] texts were sent and not yet answered, [k] translations were
    consumed.  A translation beyond the texts sent is a missing key of
    [text_mapping]; a translation without "text" is a missing key of the
    translation. *)
Fixpoint json_scatter_fault (n k : nat) (all : list Translation) {struct all}
    : option exn :=
  match all with
  | [] => None
  | tr :: rest =>
      match n with
      | O => Some (KeyError (Py.str_N (N.of_nat k)))
      | S n' =>
          match tr_text tr with
          | None => Some (KeyError "'text'")
          | Some _ => json_scatter_fault n' (S k) rest
          end
      end
  end.

(** The message of the fault that turns a run of [bulk_translate] into
    error responses, [None] when the batch runs through.  A batch without a
    text to send has no fault.  Otherwise the faults are, in the order in
    which they can occur: a source or target code that does not map, a
    vendor client that cannot be created, a call that raises, and more
    results than texts sent. *)
Definition sync_batch_fault (R : Remote) (texts : list string) (s t : string)
    (w : World) : option string :=
  if decide (filter is_sent texts = []) then None
  else
    match map_source_lang s with
    | Raised e => Some (sync_error_message e)
    | Returned sm =>
        match map_target_lang t with
        | Raised e => Some (sync_error_message e)
        | Returned tm =>
            match client R w with
            | (Raised e, _) => Some (sync_error_message e)
            | (Returned c, _) =>
                match translate_text R c (TextList (filter is_sent texts)) sm tm with
                | Raised e => Some (sync_error_message e)
                | Returned results =>
                    if decide (length (as_list results)
                               ≤ length (filter is_sent texts))
                    then None
                    else Some (Py.str_N (N.of_nat (length (filter is_sent texts))))
                end
            end
        end
    end.

(** The results that the service returned to a run of [bulk_translate], in
    the order in which it returned them, each as its translated text and
    its detected language; none when nothing was sent or the call failed. *)
Definition sync_batch_results (R : Remote) (texts : list string) (s t : string)
    (w : World) : list (string * string) :=
  if decide (filter is_sent texts = []) then []
  else
    match map_source_lang s, map_target_lang t, client R w with
    | Returned sm, Returned tm, (Returned c, _) =>
        match translate_text R c (TextList (filter is_sent texts)) sm tm with
        | Returned results => sdk_view s <$> as_list results
        | Raised _ => []
        end
    | _, _, _ => []
    end.

(** The answer to the one POST of [bulk_translate_async]. *)
Definition async_batch_answer (R : Remote) (texts : list string) (s t : string)
    (w : World) : outcome (outcome JsonBody) :=
  match map_source_lang s with
  | Raised e => Raised e
  | Returned sm =>
      match map_target_lang t with
      | Raised e => Raised e
      | Returned tm =>
          Returned
            (session_post R (base_url (self w) +:+ "/v2/translate")
               (_get_headers R (self w))
               {| data_text := filter is_sent texts; data_target_lang := tm;
                  data_source_lang := sm |}
               (timeout (config (self w))))
      end
  end.

(** The same for [bulk_translate_async]: a code that does not map, a POST
    that raises, an answer without "translations", and a translation that
    stops the scatter loop. *)
Definition async_batch_fault (R : Remote) (texts : list string) (s t : string)
    (w : World) : option string :=
  if decide (filter is_sent texts = []) then None
  else
    match async_batch_answer R texts s t w with
    | Raised e | Returned (Raised e) => Some (async_error_message e)
    | Returned (Returned body) =>
        match translations body with
        | None => Some "'translations'"
        | Some all =>
            async_error_message
              <$> json_scatter_fault (length (filter is_sent texts)) 0 all
        end
    end.

(** The translations of that answer, in the order of the answer. *)
Definition async_batch_results (R : Remote) (texts : list string) (s t : string)
    (w : World) : list (string * string) :=
  if decide (filter is_sent texts = []) then []
  else
    match async_batch_answer R texts s t w with
    | Returned (Returned body) => json_view s <$> default [] (translations body)
    | _ => []
    end.

(** The responses of a batch with the given fault and results. *)
Definition batch_responses (s t : string) (texts : list string)
    (fault : option string) (results : list (string * string))
    : list TranslationResponse :=
  match fault with
  | Some message => bulk_error_responses s t message texts
  | None => in_order_responses s t texts results
  end.

(** * Properties *)

(** ** Python strings *)

Lemma rstrip_empty s : Py.rstrip s = "" ↔ Py.whitespace_only s = true.
Proof.
  induction s as [|c s IH]; [done|].
  change (Py.whitespace_only (String c s))
    with (Py.is_space c && Py.whitespace_only s).
  rewrite andb_true_iff, <- IH. simpl.
  destruct (Py.rstrip s), (Py.is_space c); intuition congruence.
Qed.

Lemma whitespace_only_lstrip s :
  Py.whitespace_only (Py.lstrip s) = Py.whitespace_only s.
Proof.
  induction s as [|c s IH]; [done|].
  change (Py.whitespace_only (String c s))
    with (Py.is_space c && Py.whitespace_only s).
  simpl. destruct (Py.is_space c) eqn:Hc; [done|].
  change (Py.whitespace_only (String c s))
    with (Py.is_space c && Py.whitespace_only s).
  by rewrite Hc.
Qed.

(** The code's test [not text.strip()] is the test for an empty or
    whitespace-only text. *)
Lemma is_sent_whitespace_only text :
  is_sent text = negb (Py.whitespace_only text).
Proof.
  unfold is_sent, Py.truthy, Py.strip. f_equal.
  rewrite <- whitespace_only_lstrip.
  destruct (String.eqb_spec (Py.rstrip (Py.lstrip text)) "") as [H|H].
  - symmetry. by apply rstrip_empty.
  - destruct (Py.whitespace_only (Py.lstrip text)) eqn:Hw; [|done].
    by apply rstrip_empty in Hw.
Qed.

(** ** The loops of the bulk operations *)

Lemma collect_from texts : ∀ off idxs valid,
  length idxs = length valid →
  foldl collect_step (map_seq 0 idxs, valid) (imap (λ i, pair (off + i)) texts)
  = (map_seq 0 (idxs ++ sent_indices off texts), valid ++ filter is_sent texts).
Proof.
  induction texts as [|t ts IH]; intros off idxs valid Hlen; simpl.
  - by rewrite !app_nil_r.
  - replace (off + 0) with off by lia.
    rewrite (imap_ext _ (λ i, pair (S off + i))) by (intros; simpl; f_equal; lia).
    fold (is_sent t). destruct (is_sent t) eqn:Ht.
    + rewrite filter_cons_True by (by apply Is_true_true_2).
      rewrite <- Hlen.
      replace (<[length idxs:=off]> (map_seq 0 idxs))
        with (map_seq (M:=gmap nat nat) 0 (idxs ++ [off]))
        by (by rewrite map_seq_snoc).
      rewrite IH by (rewrite !length_app; simpl; lia).
      by rewrite <- !app_assoc.
    + rewrite filter_cons_False by (by apply Is_true_false_2). by apply IH.
Qed.

(** The filter loop: [valid_texts] holds the texts that are sent, in their
    order, and [text_mapping] maps [k] to the position of the [k]-th. *)
Lemma collect_valid_spec texts :
  collect_valid texts
  = (map_seq 0 (sent_indices 0 texts), filter is_sent texts).
Proof.
  unfold collect_valid, enumerate.
  change (∅ : gmap nat nat) with (map_seq (M:=gmap nat nat) 0 (@nil nat)).
  rewrite (imap_ext _ (λ i, pair (0 + i))) by done.
  by rewrite collect_from.
Qed.

(** The scatter loop, run on the mapping that the filter loop built, is
    [scatter_outcome]: [pre] holds the positions before the texts that are
    still to come, [done] the positions of the texts already answered. *)
Lemma scatter_loop {X} (build : X → nat → outcome TranslationResponse)
    (mk : X → string → outcome TranslationResponse) (all_texts : list string)
    (text_mapping : gmap nat nat) :
  (∀ r idx t, all_texts !! idx = Some t → build r idx = mk r t) →
  ∀ texts results k done pre ptexts,
    all_texts = ptexts ++ texts →
    length ptexts = length pre →
    text_mapping = map_seq 0 (done ++ sent_indices (length pre) texts) →
    length done = k →
    for_each (scatter_step text_mapping build)
      (imap (λ i, pair (k + i)) results) (pre ++ replicate (length texts) None)
    = match scatter_outcome mk k texts results with
      | Returned rest => Returned (pre ++ rest)
      | Raised e => Raised e
      end.
Proof.
  intros Hbuild. induction texts as [|t ts IH];
    intros results k done pre ptexts Hall Hpre Hmap Hk.
  - destruct results as [|r rs]; simpl; [done|].
    rewrite Hmap, lookup_map_seq_0, app_nil_r, lookup_ge_None_2 by lia.
    by replace (k + 0) with k by lia.
  - simpl scatter_outcome. simpl sent_indices in Hmap.
    destruct (is_sent t) eqn:Ht.
    + destruct results as [|r rs]; [done|].
      simpl. replace (k + 0) with k by lia.
      assert (text_mapping !! k = Some (length pre)) as ->.
      { rewrite Hmap, lookup_map_seq_0, lookup_app_r by lia.
        by replace (k - length done) with 0 by lia. }
      rewrite (Hbuild r (length pre) t)
        by (rewrite Hall, lookup_app_r by lia;
            by replace (length pre - length ptexts) with 0 by lia).
      destruct (mk r t) as [b|e]; [|done].
      rewrite decide_True by (rewrite length_app; simpl; lia).
      replace (<[length pre:=Some b]> (pre ++ None :: replicate (length ts) None))
        with ((pre ++ [Some b]) ++ replicate (length ts) (@None TranslationResponse)).
      2:{ rewrite insert_app_r_alt by lia.
          replace (length pre - length pre) with 0 by lia.
          simpl. by rewrite <- app_assoc. }
      rewrite (imap_ext _ (λ i, pair (S k + i)))
        by (intros; simpl; f_equal; lia).
      rewrite (IH rs (S k) (done ++ [length pre]) (pre ++ [Some b]) (ptexts ++ [t])).
      * destruct (scatter_outcome mk (S k) ts rs); [|done].
        by rewrite <- app_assoc.
      * by rewrite <- app_assoc.
      * rewrite !length_app. simpl. lia.
      * rewrite length_app. simpl. rewrite Hmap.
        replace (length pre + 1) with (S (length pre)) by lia.
        by rewrite <- app_assoc.
      * rewrite length_app. simpl. lia.
    + replace (pre ++ replicate (length (t :: ts)) None)
        with ((pre ++ [None]) ++ replicate (length ts) (@None TranslationResponse))
        by (by rewrite <- app_assoc).
      rewrite (IH results k done (pre ++ [None]) (ptexts ++ [t])).
      * destruct (scatter_outcome mk k ts results); [|done].
        by rewrite <- app_assoc.
      * by rewrite <- app_assoc.
      * rewrite !length_app. simpl. lia.
      * rewrite length_app. simpl. rewrite Hmap.
        by replace (length pre + 1) with (S (length pre)) by lia.
      * done.
Qed.

(** The two loops together, as the bulk operations run them. *)
Lemma scatter_collected {X} (build : X → nat → outcome TranslationResponse)
    (mk : X → string → outcome TranslationResponse) (texts : list string)
    (results : list X) :
  (∀ r idx t, texts !! idx = Some t → build r idx = mk r t) →
  for_each (scatter_step (map_seq 0 (sent_indices 0 texts)) build)
    (enumerate results) (replicate (length texts) None)
  = scatter_outcome mk 0 texts results.
Proof.
  intros Hbuild. unfold enumerate.
  rewrite (imap_ext _ (λ i, pair (0 + i))) by done.
  rewrite (scatter_loop build mk texts _ Hbuild texts results 0 [] [] []) by done.
  by destruct (scatter_outcome mk 0 texts results).
Qed.

Lemma in_order_responses_nil s t texts :
  in_order_responses s t texts [] = replicate (length texts) (empty_response s t).
Proof.
  induction texts as [|text ts IH]; simpl; [done|].
  rewrite IH. by destruct (is_sent text).
Qed.

Lemma length_in_order_responses s t texts : ∀ results,
  length (in_order_responses s t texts results) = length texts.
Proof.
  induction texts as [|text ts IH]; intros results; simpl; [done|].
  destruct (is_sent text); [destruct results as [|[??] ?]|]; simpl; by rewrite IH.
Qed.

(** After the fill loop, a scatter loop that ended without an exception has
    produced the in-order responses.  [view] reads the translated text and
    the detected language off a result. *)
Lemma fill_scatter_outcome {X} (mk : X → string → outcome TranslationResponse)
    (view : X → string * string) s t :
  (∀ r text b, mk r text = Returned b →
     b = success_response s t (view r).1 (view r).2 text) →
  ∀ texts k results placed,
    scatter_outcome mk k texts results = Returned placed →
    fill_empty s t placed = in_order_responses s t texts (view <$> results).
Proof.
  intros Hmk. induction texts as [|text ts IH]; intros k results placed;
    cbn [scatter_outcome in_order_responses].
  - destruct results; [|done]. by intros [= <-].
  - destruct (is_sent text).
    + destruct results as [|r rs]; [rewrite fmap_nil | rewrite fmap_cons].
      * intros [= <-]. rewrite in_order_responses_nil.
        unfold fill_empty. simpl. by rewrite fmap_replicate.
      * destruct (mk r text) as [b|e] eqn:Hb; [|done].
        destruct (scatter_outcome mk (S k) ts rs) as [rest|e] eqn:Hrest; [|done].
        intros [= <-]. apply Hmk in Hb as ->. apply IH in Hrest.
        rewrite <- Hrest. by destruct (view r).
    + destruct (scatter_outcome mk k ts results) as [rest|e] eqn:Hrest; [|done].
      intros [= <-]. apply IH in Hrest. by rewrite <- Hrest.
Qed.

(** When no response can fail to build and the service returns no more
    results than texts were sent, the scatter loop ends without exception. *)
Lemma scatter_outcome_total {X} (mk : X → string → outcome TranslationResponse) :
  (∀ r text, ∃ b, mk r text = Returned b) →
  ∀ texts k results,
    length results ≤ length (filter is_sent texts) →
    ∃ placed, scatter_outcome mk k texts results = Returned placed.
Proof.
  intros Hmk. induction texts as [|text ts IH]; intros k results; simpl.
  - destruct results; simpl; [eauto | lia].
  - destruct (is_sent text) eqn:Ht.
    + rewrite filter_cons_True by (by apply Is_true_true_2).
      destruct results as [|r rs]; simpl; [eauto|]. intros Hlen.
      destruct (Hmk r text) as [b ->].
      destruct (IH (S k) rs) as [rest ->]; [lia | eauto].
    + rewrite filter_cons_False by (by apply Is_true_false_2). intros Hlen.
      destruct (IH k results) as [rest ->]; [lia | eauto].
Qed.

(** The response at a position of the in-order responses: a blank text has
    the empty response, a text that is sent has the response built from
    the result whose rank is the number of sent texts before it. *)
Lemma in_order_responses_lookup s t texts : ∀ results i text,
  texts !! i = Some text →
  in_order_responses s t texts results !! i
  = Some (if is_sent text then
            match results !! length (filter is_sent (take i texts)) with
            | Some (translated, detected) =>
                success_response s t translated detected text
            | None => empty_response s t
            end
          else empty_response s t).
Proof.
  induction texts as [|t0 ts IH]; intros results i text Hi; [done|].
  destruct i as [|i]; simpl in Hi.
  - injection Hi as ->. simpl.
    destruct (is_sent text); [|done]. by destruct results as [|[??] ?].
  - simpl. destruct (is_sent t0) eqn:Ht0.
    + rewrite filter_cons_True by (by apply Is_true_true_2).
      destruct results as [|[tr det] rs]; simpl; rewrite (IH _ i text Hi).
      * rewrite !lookup_nil. done.
      * done.
    + rewrite filter_cons_False by (by apply Is_true_false_2).
      simpl. by rewrite (IH _ i text Hi).
Qed.

(** ** Running the operations *)

Lemma client_wire R w o w1 : client R w = (o, w1) → wire w1 = wire w.
Proof.
  unfold client, set_client. run.
  destruct (_client (self w)); [by intros [= <- <-]|].
  destruct (new_Translator R _ _); by intros [= <- <-].
Qed.

Lemma sdk_response_build texts s t (r : TextResult) idx text :
  texts !! idx = Some text →
  sdk_response texts s t r idx
  = Returned (success_response s t (sdk_view s r).1 (sdk_view s r).2 text).
Proof. intros H. unfold sdk_response. by rewrite H. Qed.

Lemma json_response_build texts s t (tr : Translation) idx text :
  texts !! idx = Some text →
  json_response texts s t tr idx
  = match tr_text tr with
    | Some translated =>
        Returned (success_response s t translated (json_detected_lang tr s) text)
    | None => Raised (KeyError (Py.repr "text"))
    end.
Proof. intros H. unfold json_response. rewrite H. by destruct (tr_text tr). Qed.

(** Every run of [bulk_translate] returns, and what it returns is either
    the error responses of the whole batch or the in-order responses for
    some sequence of results. *)
Lemma bulk_translate_cases R texts s t w :
  ∃ rs w', bulk_translate R texts s t w = (Returned rs, w') ∧
    ((∃ message, rs = bulk_error_responses s t message texts) ∨
     (∃ results, rs = in_order_responses s t texts results)).
Proof.
  unfold bulk_translate. destruct (decide (texts = [])) as [->|Hne].
  { eexists _, _. split; [done|]. right. by exists []. }
  unfold try_except at 1. rewrite collect_valid_spec.
  destruct (decide (filter is_sent texts = [])) as [Hnone|Hsome].
  { run. eexists _, _. split; [done|]. right. exists [].
    rewrite in_order_responses_nil. clear. by induction texts; simpl; f_equal. }
  assert (∀ e w', ∃ rs w'',
    (match e with
     | DeepLException _ =>
         ret (bulk_error_responses s t ("DeepL API error: " +:+ str_exn e) texts)
     | _ => ret (bulk_error_responses s t (str_exn e) texts)
     end) w' = (Returned rs, w'') ∧
    ((∃ message, rs = bulk_error_responses s t message texts) ∨
     (∃ results, rs = in_order_responses s t texts results))) as Hhandler.
  { intros e w'. destruct e; eexists _, _; (split; [done|]); left; eauto. }
  unfold bind at 1, lift at 1.
  destruct (map_source_lang s) as [sm|e]; [|apply Hhandler].
  unfold bind at 1, lift at 1.
  destruct (map_target_lang t) as [tm|e]; [|apply Hhandler].
  unfold bind at 1.
  destruct (client R w) as [[c|e] w1]; [|apply Hhandler].
  unfold bind at 1, remote_call at 1.
  destruct (translate_text R c _ sm tm) as [results|e]; [|apply Hhandler].
  unfold bind at 1, lift at 1.
  rewrite (scatter_collected _ (λ r text, Returned
             (success_response s t (sdk_view s r).1 (sdk_view s r).2 text)))
    by (intros; by apply sdk_response_build).
  match goal with
  | |- context [scatter_outcome ?mk 0 texts ?rs] =>
      destruct (scatter_outcome mk 0 texts rs) as [placed|e] eqn:Hplaced
  end; [|apply Hhandler].
  eexists _, _. split; [done|]. right.
  eexists. eapply (fill_scatter_outcome _ (sdk_view s)); [|exact Hplaced].
  by intros r text b [= <-].
Qed.

Lemma post_translate_run R data w :
  post_translate R data w
  = (session_post R (base_url (self w) +:+ "/v2/translate")
       (_get_headers R (self w)) data (timeout (config (self w))),
     {| self := self w;
        wire := wire w ++ [CallPost (base_url (self w) +:+ "/v2/translate")
                             (_get_headers R (self w)) data
                             (timeout (config (self w)))] |}).
Proof. done. Qed.

(** The same for [bulk_translate_async]. *)
Lemma bulk_translate_async_cases R texts s t w :
  ∃ rs w', bulk_translate_async R texts s t w = (Returned rs, w') ∧
    ((∃ message, rs = bulk_error_responses s t message texts) ∨
     (∃ results, rs = in_order_responses s t texts results)).
Proof.
  unfold bulk_translate_async. destruct (decide (texts = [])) as [->|Hne].
  { eexists _, _. split; [done|]. right. by exists []. }
  unfold try_except at 1. rewrite collect_valid_spec.
  destruct (decide (filter is_sent texts = [])) as [Hnone|Hsome].
  { run. eexists _, _. split; [done|]. right. exists [].
    rewrite in_order_responses_nil. clear. by induction texts; simpl; f_equal. }
  assert (∀ e w', ∃ rs w'',
    (match e with
     | ClientError _ =>
         ret (bulk_error_responses s t ("DeepL API error: " +:+ str_exn e) texts)
     | _ => ret (bulk_error_responses s t (str_exn e) texts)
     end) w' = (Returned rs, w'') ∧
    ((∃ message, rs = bulk_error_responses s t message texts) ∨
     (∃ results, rs = in_order_responses s t texts results))) as Hhandler.
  { intros e w'. destruct e; eexists _, _; (split; [done|]); left; eauto. }
  unfold bind at 1, lift at 1.
  destruct (map_source_lang s) as [sm|e]; [|apply Hhandler].
  unfold bind at 1, lift at 1.
  destruct (map_target_lang t) as [tm|e]; [|apply Hhandler].
  unfold bind at 1. rewrite post_translate_run.
  destruct (session_post R _ _ _ _) as [result|e]; [|apply Hhandler].
  unfold bind at 1, lift at 1.
  destruct (get_translations result) as [all|e]; [|apply Hhandler].
  unfold bind at 1, lift at 1.
  rewrite (scatter_collected _ (λ tr text,
             match tr_text tr with
             | Some translated =>
                 Returned (success_response s t translated
                             (json_detected_lang tr s) text)
             | None => Raised (KeyError (Py.repr "text"))
             end))
    by (intros; by apply json_response_build).
  match goal with
  | |- context [scatter_outcome ?mk 0 texts ?rs] =>
      destruct (scatter_outcome mk 0 texts rs) as [placed|e] eqn:Hplaced
  end; [|apply Hhandler].
  eexists _, _. split; [done|]. right.
  eexists. eapply (fill_scatter_outcome _ (json_view s)); [|exact Hplaced].
  intros r text b. unfold json_view. by destruct (tr_text r); intros [= <-].
Qed.

(** ** Batches: length and order *)

Lemma batch_shape s t texts rs :
  (∃ message, rs = bulk_error_responses s t message texts) ∨
  (∃ results, rs = in_order_responses s t texts results) →
  length rs = length texts ∧
  ∀ i text, texts !! i = Some text →
    ∃ r, rs !! i = Some r ∧ answers s t text r.
Proof.
  intros [[message ->]|[results ->]].
  - unfold bulk_error_responses. rewrite length_fmap. split; [done|].
    intros i text Hi. rewrite list_lookup_fmap, Hi. simpl.
    eexists. split; [done|]. constructor.
  - rewrite length_in_order_responses. split; [done|].
    intros i text Hi. rewrite (in_order_responses_lookup _ _ _ _ _ _ Hi).
    eexists. split; [done|].
    destruct (is_sent text); [|constructor].
    destruct (results !! _) as [[??]|]; constructor.
Qed.

(** ** Batches: one call, results back at their positions *)

Lemma sent_or_blank texts :
  length (filter is_sent texts) + length (filter Py.whitespace_only texts)
  = length texts.
Proof.
  induction texts as [|text ts IH]; [done|].
  pose proof (is_sent_whitespace_only text) as Hs.
  destruct (Py.whitespace_only text) eqn:Hw; simpl in Hs.
  - rewrite filter_cons_False by (by apply Is_true_false_2).
    rewrite (filter_cons_True Py.whitespace_only) by (by apply Is_true_true_2).
    simpl. lia.
  - rewrite filter_cons_True by (by apply Is_true_true_2).
    rewrite (filter_cons_False Py.whitespace_only) by (by apply Is_true_false_2).
    simpl. lia.
Qed.

Lemma rank_lt texts i text :
  texts !! i = Some text → is_sent text = true →
  length (filter is_sent (take i texts)) < length (filter is_sent texts).
Proof.
  intros Hi Hs. rewrite <- (take_drop_middle texts i text Hi) at 2.
  rewrite filter_app, length_app.
  rewrite filter_cons_True by (by apply Is_true_true_2). simpl. lia.
Qed.

(** [bulk_translate] on a batch that has a text to send, with language
    codes that map and a vendor client at hand. *)
Lemma bulk_translate_sent_run R texts s t w sm tm c w1 :
  filter is_sent texts ≠ [] →
  map_source_lang s = Returned sm →
  map_target_lang t = Returned tm →
  client R w = (Returned c, w1) →
  bulk_translate R texts s t w
  = (Returned
       match translate_text R c (TextList (filter is_sent texts)) sm tm with
       | Raised e => bulk_error_responses s t (sync_error_message e) texts
       | Returned results =>
           match scatter_outcome
                   (λ r text, Returned (success_response s t (sdk_view s r).1
                                          (sdk_view s r).2 text))
                   0 texts (as_list results) with
           | Returned placed => fill_empty s t placed
           | Raised e => bulk_error_responses s t (sync_error_message e) texts
           end
       end,
     {| self := self w1;
        wire := wire w ++ [CallTranslateText c (TextList (filter is_sent texts))
                             sm tm] |}).
Proof.
  intros Hsome Hsm Htm Hc. unfold bulk_translate.
  destruct (decide (texts = [])) as [->|Hne]; [done|].
  unfold try_except. rewrite collect_valid_spec.
  rewrite decide_False by done.
  unfold bind at 1, lift at 1. rewrite Hsm.
  unfold bind at 1, lift at 1. rewrite Htm.
  unfold bind at 1. rewrite Hc, <- (client_wire _ _ _ _ Hc).
  unfold bind at 1, remote_call at 1.
  destruct (translate_text R c _ sm tm) as [results|e]; [|by destruct e].
  unfold bind at 1, lift at 1.
  rewrite (scatter_collected _ (λ r text, Returned
             (success_response s t (sdk_view s r).1 (sdk_view s r).2 text)))
    by (intros; by apply sdk_response_build).
  change (match results with ResultList rs => rs | OneResult r => [r] end)
    with (as_list results).
  match goal with
  | |- context [scatter_outcome ?mk 0 texts ?rs] =>
      destruct (scatter_outcome mk 0 texts rs) as [placed|e]
  end; [done | by destruct e].
Qed.

(** C4 (as amended). For a batch of N texts of which M < N are blank, with
    language codes that map and a vendor client at hand, [bulk_translate]
    puts exactly one call on the wire, carrying the N - M texts that are not
    blank in their order; when the service answers with one result per text
    sent, the responses are the results placed back at the positions of
    their texts, and the M blank positions hold the empty SUCCESS response
    with [char_count] 0. *)
Theorem bulk_translate_one_call_scatter R texts s t w sm tm c w1 :
  filter is_sent texts ≠ [] →
  map_source_lang s = Returned sm →
  map_target_lang t = Returned tm →
  client R w = (Returned c, w1) →
  wire (bulk_translate R texts s t w).2
    = wire w ++ [CallTranslateText c (TextList (filter is_sent texts)) sm tm] ∧
  length (filter is_sent texts)
    = length texts - length (filter Py.whitespace_only texts) ∧
  ∀ results,
    translate_text R c (TextList (filter is_sent texts)) sm tm = Returned results →
    length (as_list results) = length (filter is_sent texts) →
    (bulk_translate R texts s t w).1
      = Returned (in_order_responses s t texts (sdk_view s <$> as_list results)) ∧
    ∀ i text, texts !! i = Some text →
      in_order_responses s t texts (sdk_view s <$> as_list results) !! i
      = if Py.whitespace_only text
        then Some (_create_response "" s t 0 None None)
        else (λ r, success_response s t (result_text r) (sdk_detected_lang r s) text)
               <$> as_list results !! length (filter is_sent (take i texts)).
Proof.
  intros Hsome Hsm Htm Hc.
  rewrite (bulk_translate_sent_run R texts s t w sm tm c w1) by done.
  split; [done|]. split; [pose proof (sent_or_blank texts); lia|].
  intros results Hres Hlen. rewrite Hres. cbn [fst]. split.
  - destruct (scatter_outcome_total
                (λ r text, Returned (success_response s t (sdk_view s r).1
                                       (sdk_view s r).2 text))
                ltac:(eauto) texts 0 (as_list results) ltac:(lia))
      as [placed Hplaced].
    rewrite Hplaced. f_equal.
    eapply fill_scatter_outcome; [|exact Hplaced]. by intros r text b [= <-].
  - intros i text Hi. rewrite (in_order_responses_lookup _ _ _ _ _ _ Hi).
    rewrite is_sent_whitespace_only.
    destruct (Py.whitespace_only text) eqn:Hw; simpl; [done|].
    rewrite list_lookup_fmap.
    destruct (as_list results !! _) as [r|] eqn:Hr; simpl; [done|].
    apply lookup_ge_None in Hr.
    assert (is_sent text = true) as Hs
      by (by rewrite is_sent_whitespace_only, Hw).
    pose proof (rank_lt texts i text Hi Hs). lia.
Qed.

Lemma bulk_translate_one_call_scatter_witness :
  (bulk_translate echo_remote ["Hello"; ""; "World"] "en" "es" (start free_config)).1
  = Returned [ success_response "en" "es" "<Hello>" "en" "Hello";
               empty_response "en" "es";
               success_response "en" "es" "<World>" "en" "World" ].
Proof.
  pose proof (bulk_translate_one_call_scatter echo_remote
                ["Hello"; ""; "World"] "en" "es" (start free_config)
                (Some "EN") "ES"
                {| auth_key := "test-deepl-key:fx";
                   server_url := "https://api-free.deepl.com" |}
                {| self := {| config := free_config;
                              _client := Some {| auth_key := "test-deepl-key:fx";
                                                 server_url := "https://api-free.deepl.com" |};
                              is_free_api := true;
                              base_url := "https://api-free.deepl.com" |};
                   wire := [] |}
                ltac:(vm_compute; discriminate) eq_refl eq_refl eq_refl)
    as (_ & _ & H).
  destruct (H (ResultList [echo_result "Hello"; echo_result "World"])
              eq_refl eq_refl) as [-> _].
  reflexivity.
Defined.

(** C4, the claim as stated fails: a batch whose texts are all blank makes no
    call at all. *)
Lemma bulk_translate_blank_batch_no_call :
  wire (bulk_translate echo_remote [" "] "en" "es" (start free_config)).2 = [] ∧
  (bulk_translate echo_remote [" "] "en" "es" (start free_config)).1
  = Returned [empty_response "en" "es"].
Proof. by vm_compute. Qed.

(** ** Blank texts *)

Lemma is_sent_false text : Py.whitespace_only text = true → is_sent text = false.
Proof. intros H. by rewrite is_sent_whitespace_only, H. Qed.

Lemma is_sent_true text : Py.whitespace_only text = false → is_sent text = true.
Proof. intros H. by rewrite is_sent_whitespace_only, H. Qed.

Lemma translate_blank R text s t w :
  Py.whitespace_only text = true →
  translate R text s t w = (Returned (empty_response s t), w).
Proof.
  intros H%is_sent_false. unfold translate, try_except.
  fold (is_sent text). by rewrite H.
Qed.

Lemma translate_async_blank R text s t w :
  Py.whitespace_only text = true →
  translate_async R text s t w = (Returned (empty_response s t), w).
Proof.
  intros H%is_sent_false. unfold translate_async, try_except.
  fold (is_sent text). by rewrite H.
Qed.

Lemma filter_is_sent_blank texts :
  Forall (λ text, Py.whitespace_only text = true) texts →
  filter is_sent texts = [].
Proof.
  induction 1 as [|text ts Ht _ IH]; [done|].
  rewrite filter_cons_False; [done|].
  apply Is_true_false_2. by apply is_sent_false.
Qed.

Lemma in_order_responses_blank s t texts results i text :
  texts !! i = Some text → Py.whitespace_only text = true →
  in_order_responses s t texts results !! i = Some (empty_response s t).
Proof.
  intros Hi Hw. rewrite (in_order_responses_lookup _ _ _ _ _ _ Hi).
  by rewrite (is_sent_false _ Hw).
Qed.

Lemma bulk_error_responses_lookup s t message texts i text :
  texts !! i = Some text →
  bulk_error_responses s t message texts !! i
  = Some (error_response s t text message).
Proof.
  intros Hi. unfold bulk_error_responses. by rewrite list_lookup_fmap, Hi.
Qed.

(** C2, the claim as stated fails: when the transport fails in
    [bulk_translate], the whitespace-only text of the batch gets an ERROR
    response whose [char_count] is its length. *)
Lemma bulk_translate_failure_blank_text_error :
  Py.whitespace_only "   " = true ∧
  ∃ rs r,
    (bulk_translate failing_remote ["Hello"; "   "] "en" "es"
       (start free_config)).1 = Returned rs ∧
    rs !! 1 = Some r ∧
    status r = ERROR ∧ char_count r = 3%N ∧
    error r = Some "DeepL API error: Connection failed".
Proof. split; [done|]. eexists _, _. by vm_compute. Qed.

(** C10. A batch that is not empty and whose texts are all blank: both bulk
    operations return one empty SUCCESS response per text and leave the
    world as it was (no call on the wire, no vendor client created), for
    every pair of language codes, mapped or not. *)
Theorem blank_batch_returns_at_once R texts s t w :
  texts ≠ [] →
  Forall (λ text, Py.whitespace_only text = true) texts →
  bulk_translate R texts s t w
    = (Returned ((λ _, _create_response "" s t 0 None None) <$> texts), w) ∧
  bulk_translate_async R texts s t w
    = (Returned ((λ _, _create_response "" s t 0 None None) <$> texts), w) ∧
  status (_create_response "" s t 0 None None) = SUCCESS.
Proof.
  intros Hne Hblank%filter_is_sent_blank.
  unfold bulk_translate, bulk_translate_async, try_except.
  rewrite !decide_False by done. rewrite collect_valid_spec, Hblank.
  by rewrite decide_True.
Qed.

Lemma blank_batch_returns_at_once_witness :
  bulk_translate failing_remote [""; "  "] "klingon" "xx" (start free_config)
  = (Returned [ _create_response "" "klingon" "xx" 0 None None;
                _create_response "" "klingon" "xx" 0 None None ],
     start free_config).
Proof.
  apply (blank_batch_returns_at_once failing_remote [""; "  "] "klingon" "xx"
           (start free_config)).
  - discriminate.
  - repeat constructor.
Defined.

(** ** Texts over the limit *)

Lemma translate_too_long R text s t w :
  (max_chunk_size < Py.len text)%N →
  Py.whitespace_only text = false →
  translate R text s t w
  = (Returned (error_response s t text (too_long_message text)), w).
Proof.
  intros Hlen Hs%is_sent_true. unfold translate, try_except.
  fold (is_sent text). rewrite Hs. simpl negb. cbv iota.
  apply N.ltb_lt in Hlen. by rewrite Hlen.
Qed.

Lemma translate_async_too_long R text s t w :
  (max_chunk_size < Py.len text)%N →
  Py.whitespace_only text = false →
  translate_async R text s t w
  = (Returned (error_response s t text (too_long_message text)), w).
Proof.
  intros Hlen Hs%is_sent_true. unfold translate_async, try_except.
  fold (is_sent text). rewrite Hs. simpl negb. cbv iota.
  apply N.ltb_lt in Hlen. by rewrite Hlen.
Qed.

(** C8 (as amended). For every text of more than 30,000 characters that is
    not whitespace-only, [translate] and [translate_async] return an ERROR
    response whose message names the limit of 30000 characters and whose
    [char_count] is the full length of the text, and they leave the world as
    it was: no request is built or sent. *)
Theorem too_long_text_is_error R text s t w :
  (30000 < Py.len text)%N →
  Py.whitespace_only text = false →
  let response :=
    _create_response "" s t (Py.len text) None
      (Some ("Text length (" +:+ Py.str_N (Py.len text)
             +:+ ") exceeds DeepL's maximum of 30000 characters")) in
  translate R text s t w = (Returned response, w) ∧
  translate_async R text s t w = (Returned response, w) ∧
  status response = ERROR.
Proof.
  intros Hlen Hw response. split; [|split; [|done]].
  - by rewrite translate_too_long.
  - by rewrite translate_async_too_long.
Qed.

Lemma too_long_text_is_error_witness :
  translate echo_remote (times "a" (N.to_nat 30001)) "en" "es" (start free_config)
  = (Returned
       (_create_response "" "en" "es" 30001 None
          (Some "Text length (30001) exceeds DeepL's maximum of 30000 characters")),
     start free_config).
Proof.
  refine (proj1 (too_long_text_is_error echo_remote (times "a" (N.to_nat 30001))
                   "en" "es" (start free_config) _ _)).
  - by vm_compute.
  - by vm_compute.
Defined.

(** C8, the claim as stated fails: a text of 30,001 spaces is longer than
    the limit and is answered with the empty SUCCESS response. *)
Lemma translate_long_blank_text_success :
  (30000 < Py.len (times " " (N.to_nat 30001)))%N ∧
  (translate echo_remote (times " " (N.to_nat 30001)) "en" "es"
     (start free_config)).1
  = Returned (empty_response "en" "es") ∧
  status (empty_response "en" "es") = SUCCESS.
Proof.
  split; [by vm_compute|]. split; [|done].
  rewrite translate_blank; [done|]. by vm_compute.
Qed.

(** ** Language codes *)

(** Two facts about the table, checked entry by entry: no mapped code is
    empty, and the root of every key is a key. *)
Lemma supported_language_map_entries :
  map_Forall (λ k v, Py.truthy v = true ∧
                     is_Some (supported_language_map !! _get_root_lang_code k))
    supported_language_map.
Proof. apply (bool_decide_unpack _). by vm_compute. Qed.

Lemma mapped_code_truthy k v :
  supported_language_map !! k = Some v → Py.truthy v = true.
Proof. intros H. by destruct (supported_language_map_entries k v H). Qed.

Lemma root_of_key_is_key k :
  is_Some (supported_language_map !! k) →
  is_Some (supported_language_map !! _get_root_lang_code k).
Proof. intros [v H]. by destruct (supported_language_map_entries k v H). Qed.

Lemma map_target_lang_eq t :
  map_target_lang t
  = match supported_language_map !! t with
    | Some mapped => Returned mapped
    | None =>
        match supported_language_map !! _get_root_lang_code t with
        | Some mapped => Returned mapped
        | None => Raised (ValueError "Unsupported Language")
        end
    end.
Proof.
  unfold map_target_lang, _map_language_code.
  by destruct (supported_language_map !! t).
Qed.

Lemma map_source_lang_eq s :
  s ≠ "auto" →
  map_source_lang s
  = match supported_language_map !! _get_root_lang_code s with
    | Some mapped => Returned (Some mapped)
    | None => Raised (ValueError "Unsupported Language")
    end.
Proof.
  intros Hs. unfold map_source_lang, _map_language_code.
  destruct (String.eqb_spec s "auto") as [?|_]; [done|]. cbn [negb].
  by destruct (supported_language_map !! _get_root_lang_code s).
Qed.

Lemma request_data_source texts s sm tm :
  map_source_lang s = Returned sm →
  request_data texts sm tm
  = {| data_text := texts; data_target_lang := tm; data_source_lang := sm |}.
Proof.
  unfold map_source_lang, _map_language_code, request_data.
  destruct (negb (s =? "auto")%string); [|by intros [= <-]].
  destruct (supported_language_map !! _) as [m|] eqn:Hm; [|done].
  intros [= <-]. by rewrite (mapped_code_truthy _ _ Hm).
Qed.

(** C7 (as amended). For a code with a hyphen the root code is the
    lower-cased part before the first hyphen; a code without a hyphen is its
    own root, unchanged (it is not lower-cased).  A code whose root is not a
    key of the mapping table fails with the unsupported-language error
    ([ValueError('Unsupported Language')]): in the lookup of the root, as a
    target language, and as a source language other than "auto". *)
Theorem root_lang_code_and_unsupported lang_code :
  (Py.contains "-" lang_code = true →
     _get_root_lang_code lang_code = Py.lower (Py.split_head "-" lang_code)) ∧
  (Py.contains "-" lang_code = false →
     _get_root_lang_code lang_code = lang_code) ∧
  (supported_language_map !! _get_root_lang_code lang_code = None →
     _map_language_code (_get_root_lang_code lang_code)
       = Raised (ValueError "Unsupported Language") ∧
     map_target_lang lang_code = Raised (ValueError "Unsupported Language") ∧
     (lang_code ≠ "auto" →
        map_source_lang lang_code = Raised (ValueError "Unsupported Language"))).
Proof.
  unfold _get_root_lang_code at 1 2.
  split; [by intros ->|]. split; [by intros ->|].
  intros Hroot. split; [|split].
  - unfold _map_language_code. by rewrite Hroot.
  - rewrite map_target_lang_eq, Hroot.
    destruct (supported_language_map !! lang_code) as [v|] eqn:Hv; [|done].
    destruct (root_of_key_is_key lang_code) as [v' Hv']; [by eexists|].
    congruence.
  - intros Hauto. by rewrite map_source_lang_eq, Hroot.
Qed.

Lemma root_lang_code_and_unsupported_witness :
  _get_root_lang_code "EN-us" = "en" ∧
  _get_root_lang_code "EN" = "EN" ∧
  map_target_lang "tlh-Latn" = Raised (ValueError "Unsupported Language").
Proof.
  split; [|split].
  - apply (root_lang_code_and_unsupported "EN-us"). reflexivity.
  - apply (root_lang_code_and_unsupported "EN"). reflexivity.
  - apply (root_lang_code_and_unsupported "tlh-Latn"). by vm_compute.
Defined.

(** C7, the claim as stated fails: the root of a code without a hyphen is
    not lower-cased, so "EN" stays "EN" and is not found in the table,
    although its lower-cased form is a key. *)
Lemma root_lang_code_not_lowered :
  _get_root_lang_code "EN" = "EN" ∧
  Py.lower (Py.split_head "-" "EN") = "en" ∧
  _get_root_lang_code "EN" ≠ Py.lower (Py.split_head "-" "EN") ∧
  _map_language_code (_get_root_lang_code "EN")
    = Raised (ValueError "Unsupported Language") ∧
  _map_language_code "en" = Returned "EN".
Proof. by vm_compute. Qed.

(** ** The codes that go on the wire *)

Lemma translate_wire R text s t w sm tm c w1 :
  Py.whitespace_only text = false →
  (Py.len text ≤ max_chunk_size)%N →
  map_source_lang s = Returned sm →
  map_target_lang t = Returned tm →
  client R w = (Returned c, w1) →
  wire (translate R text s t w).2
  = wire w ++ [CallTranslateText c (OneText text) sm tm].
Proof.
  intros Hs%is_sent_true Hlen%N.ltb_ge Hsm Htm Hc.
  unfold translate, try_except. fold (is_sent text). rewrite Hs, Hlen.
  cbn [negb]. unfold bind at 1, lift at 1. rewrite Hsm.
  unfold bind at 1, lift at 1. rewrite Htm.
  unfold bind at 1. rewrite Hc, <- (client_wire _ _ _ _ Hc).
  unfold bind at 1, remote_call at 1.
  destruct (translate_text R c _ sm tm) as [[r|rs]|e]; [done|done|by destruct e].
Qed.

Lemma translate_async_wire R text s t w sm tm :
  Py.whitespace_only text = false →
  (Py.len text ≤ max_chunk_size)%N →
  map_source_lang s = Returned sm →
  map_target_lang t = Returned tm →
  wire (translate_async R text s t w).2
  = wire w ++ [CallPost (base_url (self w) +:+ "/v2/translate")
                 (_get_headers R (self w))
                 {| data_text := [text]; data_target_lang := tm;
                    data_source_lang := sm |}
                 (timeout (config (self w)))].
Proof.
  intros Hs%is_sent_true Hlen%N.ltb_ge Hsm Htm.
  unfold translate_async, try_except. fold (is_sent text). rewrite Hs, Hlen.
  cbn [negb]. unfold bind at 1, lift at 1. rewrite Hsm.
  unfold bind at 1, lift at 1. rewrite Htm.
  unfold bind at 1. rewrite post_translate_run, (request_data_source _ s) by done.
  destruct (session_post R _ _ _ _) as [result|e]; [|by destruct e].
  unfold bind at 1, lift at 1.
  destruct (get_translations result) as [[|tr all]|e];
    [done| |by destruct e].
  by destruct (tr_text tr).
Qed.

Lemma bulk_translate_async_wire R texts s t w sm tm :
  filter is_sent texts ≠ [] →
  map_source_lang s = Returned sm →
  map_target_lang t = Returned tm →
  wire (bulk_translate_async R texts s t w).2
  = wire w ++ [CallPost (base_url (self w) +:+ "/v2/translate")
                 (_get_headers R (self w))
                 {| data_text := filter is_sent texts; data_target_lang := tm;
                    data_source_lang := sm |}
                 (timeout (config (self w)))].
Proof.
  intros Hsome Hsm Htm. unfold bulk_translate_async.
  destruct (decide (texts = [])) as [->|Hne]; [done|].
  unfold try_except. rewrite collect_valid_spec.
  rewrite decide_False by done.
  unfold bind at 1, lift at 1. rewrite Hsm.
  unfold bind at 1, lift at 1. rewrite Htm.
  unfold bind at 1. rewrite post_translate_run, (request_data_source _ s) by done.
  destruct (session_post R _ _ _ _) as [result|e]; [|by destruct e].
  unfold bind at 1, lift at 1.
  destruct (get_translations result) as [all|e]; [|by destruct e].
  unfold bind at 1, lift at 1.
  destruct (for_each _ _ _) as [placed|e]; [done|by destruct e].
Qed.

(** C6. The target code is looked up as it is and only when that fails by
    its root; the source code (other than "auto", which is not mapped) is
    looked up by its root only.  So a region-qualified code such as "en-US"
    maps to "EN" as a source and to "EN-US" as a target.  All four
    operations put the codes mapped in this way on the wire. *)
Theorem language_normalization_asymmetric :
  (∀ t, map_target_lang t
        = match supported_language_map !! t with
          | Some mapped => Returned mapped
          | None => _map_language_code (_get_root_lang_code t)
          end) ∧
  (∀ s, s ≠ "auto" →
        map_source_lang s
        = match _map_language_code (_get_root_lang_code s) with
          | Returned mapped => Returned (Some mapped)
          | Raised e => Raised e
          end) ∧
  map_source_lang "auto" = Returned None ∧
  (map_source_lang "en-US" = Returned (Some "EN") ∧
   map_target_lang "en-US" = Returned "EN-US") ∧
  (∀ R s t w sm tm,
     map_source_lang s = Returned sm →
     map_target_lang t = Returned tm →
     (∀ text c w1,
        Py.whitespace_only text = false → (Py.len text ≤ max_chunk_size)%N →
        client R w = (Returned c, w1) →
        wire (translate R text s t w).2
        = wire w ++ [CallTranslateText c (OneText text) sm tm]) ∧
     (∀ texts c w1,
        filter is_sent texts ≠ [] →
        client R w = (Returned c, w1) →
        wire (bulk_translate R texts s t w).2
        = wire w ++ [CallTranslateText c (TextList (filter is_sent texts)) sm tm]) ∧
     (∀ text,
        Py.whitespace_only text = false → (Py.len text ≤ max_chunk_size)%N →
        wire (translate_async R text s t w).2
        = wire w ++ [CallPost (base_url (self w) +:+ "/v2/translate")
                       (_get_headers R (self w))
                       {| data_text := [text]; data_target_lang := tm;
                          data_source_lang := sm |}
                       (timeout (config (self w)))]) ∧
     (∀ texts,
        filter is_sent texts ≠ [] →
        wire (bulk_translate_async R texts s t w).2
        = wire w ++ [CallPost (base_url (self w) +:+ "/v2/translate")
                       (_get_headers R (self w))
                       {| data_text := filter is_sent texts;
                          data_target_lang := tm; data_source_lang := sm |}
                       (timeout (config (self w)))])).
Proof.
  split; [|split; [|split; [|split]]].
  - intros t. unfold map_target_lang, _map_language_code.
    by destruct (supported_language_map !! t).
  - intros s Hs. unfold map_source_lang.
    by destruct (String.eqb_spec s "auto").
  - done.
  - by vm_compute.
  - intros R s t w sm tm Hsm Htm. split; [|split; [|split]].
    + intros text c w1 Hw Hlen Hc. by eapply translate_wire.
    + intros texts c w1 Hsome Hc.
      by rewrite (bulk_translate_sent_run R texts s t w sm tm c w1).
    + intros text Hw Hlen. by apply translate_async_wire.
    + intros texts Hsome. by apply bulk_translate_async_wire.
Qed.

Lemma language_normalization_asymmetric_witness :
  wire (translate_async echo_remote "Hello" "en-US" "en-US" (start free_config)).2
  = [CallPost "https://api-free.deepl.com/v2/translate"
       [ ("Authorization", "DeepL-Auth-Key test-deepl-key:fx");
         ("Content-Type", "application/json");
         ("User-Agent", "mt_providers") ]
       {| data_text := ["Hello"]; data_target_lang := "EN-US";
          data_source_lang := Some "EN" |}
       30].
Proof.
  destruct language_normalization_asymmetric as (_ & _ & _ & _ & H).
  destruct (H echo_remote "en-US" "en-US" (start free_config) (Some "EN") "EN-US"
              ltac:(by vm_compute) ltac:(by vm_compute)) as (_ & _ & Hasync & _).
  apply (Hasync "Hello"); by vm_compute.
Defined.

(** ** The auxiliary read operations *)

Lemma client_cached R w c w1 :
  client R w = (Returned c, w1) → _client (self w1) = Some c.
Proof.
  unfold client, set_client. run.
  destruct (_client (self w)) eqn:Hcl; [by intros [= <- <-]|].
  destruct (new_Translator R _ _); [done|]. by intros [= <- <-].
Qed.

Lemma client_again R w c :
  _client (self w) = Some c → client R w = (Returned c, w).
Proof. intros H. unfold client. run. by rewrite H. Qed.

(** C9. [get_supported_languages] and [get_usage_info] always return.
    When the vendor client cannot be created or a query to the remote
    service fails, [get_supported_languages] returns the fallback lists
    and [get_usage_info] returns the empty dict. *)
Theorem read_operations_never_raise R w :
  (∃ v w', get_supported_languages R w = (Returned v, w')) ∧
  (∃ v w', get_usage_info R w = (Returned v, w')) ∧
  (∀ e w1, client R w = (Raised e, w1) →
     (get_supported_languages R w).1 = Returned fallback_languages ∧
     (get_usage_info R w).1 = Returned ∅) ∧
  (∀ c w1, client R w = (Returned c, w1) →
     ((∃ e, get_source_languages R c = Raised e) ∨
      (∃ e, get_target_languages R c = Raised e) →
      (get_supported_languages R w).1 = Returned fallback_languages) ∧
     ((∃ e, get_usage R c = Raised e) →
      (get_usage_info R w).1 = Returned ∅)) ∧
  fallback_languages !! "source"
    = Some ["en"; "de"; "fr"; "es"; "pt"; "it"; "ru"; "ja"; "zh"; "pl"; "nl";
            "sv"; "da"; "no"; "fi"] ∧
  fallback_languages !! "target"
    = Some ["en-us"; "en-gb"; "de"; "fr"; "es"; "pt-pt"; "pt-br"; "it"; "ru";
            "ja"; "zh"; "pl"; "nl"; "sv"; "da"; "no"; "fi"].
Proof.
  assert (∀ c w1, client R w = (Returned c, w1) →
            ∀ call, client R {| self := self w1; wire := wire w1 ++ [call] |}
                    = (Returned c, {| self := self w1; wire := wire w1 ++ [call] |}))
    as Hagain.
  { intros c w1 Hc call. apply client_again. simpl. by eapply client_cached. }
  split; [|split; [|split; [|split; [|by vm_compute]]]].
  - unfold get_supported_languages, try_except. unfold bind at 1.
    destruct (client R w) as [[c|e] w1] eqn:Hc; [|by eexists _, _].
    unfold bind at 1, remote_call at 1.
    destruct (get_source_languages R c); [|by eexists _, _].
    unfold bind at 1. rewrite (Hagain c w1) by done.
    unfold bind at 1, remote_call at 1.
    destruct (get_target_languages R c); by eexists _, _.
  - unfold get_usage_info, try_except. unfold bind at 1.
    destruct (client R w) as [[c|e] w1] eqn:Hc; [|by eexists _, _].
    unfold bind at 1, remote_call at 1.
    destruct (get_usage R c) as [usage|e]; [|by eexists _, _].
    unfold bind at 1, lift at 1.
    destruct (getattr _ _ (character usage)); by eexists _, _.
  - intros e w1 Hc.
    unfold get_supported_languages, get_usage_info, try_except.
    split; unfold bind at 1; by rewrite Hc.
  - intros c w1 Hc. split.
    + intros Hfail. unfold get_supported_languages, try_except.
      unfold bind at 1. rewrite Hc. unfold bind at 1, remote_call at 1.
      destruct (get_source_languages R c) as [src|e] eqn:Hsrc; [|done].
      unfold bind at 1. rewrite (Hagain c w1) by done.
      unfold bind at 1, remote_call at 1.
      destruct (get_target_languages R c) as [tgt|e] eqn:Htgt; [|done].
      by destruct Hfail as [[e ?]|[e ?]].
    + intros [e Hfail]. unfold get_usage_info, try_except.
      unfold bind at 1. rewrite Hc. unfold bind at 1, remote_call at 1.
      by rewrite Hfail.
Qed.

Lemma read_operations_never_raise_witness :
  (get_supported_languages failing_remote (start free_config)).1
    = Returned fallback_languages ∧
  (get_usage_info failing_remote (start free_config)).1 = Returned ∅.
Proof.
  destruct (read_operations_never_raise failing_remote (start free_config))
    as (_ & _ & _ & H & _).
  destruct (H {| auth_key := "test-deepl-key:fx";
                 server_url := "https://api-free.deepl.com" |}
              {| self := {| config := free_config;
                            _client := Some {| auth_key := "test-deepl-key:fx";
                                               server_url := "https://api-free.deepl.com" |};
                            is_free_api := true;
                            base_url := "https://api-free.deepl.com" |};
                 wire := [] |} eq_refl) as [Hlang Husage].
  split.
  - apply Hlang. left. by eexists.
  - apply Husage. by eexists.
Defined.

(** ** Faults at the operation boundary *)

Lemma translate_returns R text s t w :
  ∃ r w', translate R text s t w = (Returned r, w').
Proof.
  assert (∀ e w', ∃ r w'',
    (match e with
     | DeepLException _ =>
         ret (error_response s t text ("DeepL API error: " +:+ str_exn e))
     | _ => ret (error_response s t text (str_exn e))
     end) w' = (Returned r, w'')) as Hhandler
    by (intros e w'; destruct e; by eexists _, _).
  unfold translate, try_except.
  destruct (negb _); [by eexists _, _|].
  destruct (_ <? _)%N; [by eexists _, _|].
  unfold bind at 1, lift at 1.
  destruct (map_source_lang s) as [sm|e]; [|apply Hhandler].
  unfold bind at 1, lift at 1.
  destruct (map_target_lang t) as [tm|e]; [|apply Hhandler].
  unfold bind at 1.
  destruct (client R w) as [[c|e] w1]; [|apply Hhandler].
  unfold bind at 1, remote_call at 1.
  destruct (translate_text R c _ sm tm) as [[r|rs]|e];
    [by eexists _, _|by eexists _, _|apply Hhandler].
Qed.

Lemma translate_async_returns R text s t w :
  ∃ r w', translate_async R text s t w = (Returned r, w').
Proof.
  assert (∀ e w', ∃ r w'',
    (match e with
     | ClientError _ =>
         ret (error_response s t text ("DeepL API error: " +:+ str_exn e))
     | _ => ret (error_response s t text (str_exn e))
     end) w' = (Returned r, w'')) as Hhandler
    by (intros e w'; destruct e; by eexists _, _).
  unfold translate_async, try_except.
  destruct (negb _); [by eexists _, _|].
  destruct (_ <? _)%N; [by eexists _, _|].
  unfold bind at 1, lift at 1.
  destruct (map_source_lang s) as [sm|e]; [|apply Hhandler].
  unfold bind at 1, lift at 1.
  destruct (map_target_lang t) as [tm|e]; [|apply Hhandler].
  unfold bind at 1. rewrite post_translate_run.
  destruct (session_post R _ _ _ _) as [result|e]; [|apply Hhandler].
  unfold bind at 1, lift at 1.
  destruct (get_translations result) as [[|tr all]|e];
    [by eexists _, _| |apply Hhandler].
  destruct (tr_text tr); by eexists _, _.
Qed.

(** C3, what the code does.  No translate operation ever raises: every
    exception of its body, a configuration error among them, is turned into
    a response.  With an empty API key the adapter is constructed as with
    any other key, [translate] returns an ERROR response when the vendor
    client cannot be created, and [translate_async] sends the request with
    the empty key. *)
Theorem empty_api_key_is_not_raised :
  (∀ R text texts s t w,
     (∃ r w', translate R text s t w = (Returned r, w')) ∧
     (∃ r w', translate_async R text s t w = (Returned r, w')) ∧
     (∃ rs w', bulk_translate R texts s t w = (Returned rs, w')) ∧
     (∃ rs w', bulk_translate_async R texts s t w = (Returned rs, w'))) ∧
  __init__ empty_key_config
    = {| config := empty_key_config; _client := None; is_free_api := false;
         base_url := "https://api.deepl.com" |} ∧
  translate strict_remote "test" "en" "es" (start empty_key_config)
    = (Returned (_create_response "" "en" "es" 4 None (Some "API key is required")),
       start empty_key_config) ∧
  translate_async strict_remote "test" "en" "es" (start empty_key_config)
    = (Returned (_create_response "" "en" "es" 4 None
                   (Some "DeepL API error: 403, message='Forbidden'")),
       {| self := __init__ empty_key_config;
          wire := [CallPost "https://api.deepl.com/v2/translate"
                     [ ("Authorization", "DeepL-Auth-Key ");
                       ("Content-Type", "application/json");
                       ("User-Agent", "mt_providers") ]
                     {| data_text := ["test"]; data_target_lang := "ES";
                        data_source_lang := Some "EN" |}
                     30] |}).
Proof.
  split; [|by vm_compute].
  intros R text texts s t w.
  split; [apply translate_returns|]. split; [apply translate_async_returns|].
  split.
  - destruct (bulk_translate_cases R texts s t w) as (rs & w' & H & _). eauto.
  - destruct (bulk_translate_async_cases R texts s t w) as (rs & w' & H & _). eauto.
Qed.

(** ** The endpoint *)

(** C5, what the code does.  The base URL follows the key: the free-tier
    URL when the key ends with ":fx", the paid-tier URL otherwise.  With an
    endpoint override in the configuration the vendor client of the sync
    operations is created for the override, but the async operations post
    to the URL derived from the key. *)
Theorem async_post_ignores_endpoint_override :
  (∀ cfg, base_url (__init__ cfg)
          = if Py.endswith (api_key cfg) ":fx"
            then "https://api-free.deepl.com" else "https://api.deepl.com") ∧
  wire (translate echo_remote "Hello" "en" "es" (start override_config)).2
    = [CallTranslateText
         {| auth_key := "test-deepl-key";
            server_url := "https://proxy.example.com" |}
         (OneText "Hello") (Some "EN") "ES"] ∧
  wire (translate_async echo_remote "Hello" "en" "es" (start override_config)).2
    = [CallPost "https://api.deepl.com/v2/translate"
         [ ("Authorization", "DeepL-Auth-Key test-deepl-key");
           ("Content-Type", "application/json");
           ("User-Agent", "mt_providers") ]
         {| data_text := ["Hello"]; data_target_lang := "ES";
            data_source_lang := Some "EN" |}
         30] ∧
  wire (bulk_translate_async echo_remote ["Hello"] "en" "es"
          (start override_config)).2
    = [CallPost "https://api.deepl.com/v2/translate"
         [ ("Authorization", "DeepL-Auth-Key test-deepl-key");
           ("Content-Type", "application/json");
           ("User-Agent", "mt_providers") ]
         {| data_text := ["Hello"]; data_target_lang := "ES";
            data_source_lang := Some "EN" |}
         30].
Proof. split; [done|]. by vm_compute. Qed.

(** ** Scenarios *)

(** A single translation: the detected language is lower-cased and the
    count is the length of the input. *)
Example translate_hello_world :
  (translate echo_remote "Hello world" "en" "es" (start free_config)).1
  = Returned (success_response "en" "es" "<Hello world>" "en" "Hello world").
Proof. by vm_compute. Qed.

(** With "auto" the remote is called without a source language. *)
Example translate_auto_detect :
  wire (translate echo_remote "Hello world" "auto" "es" (start free_config)).2
  = [CallTranslateText
       {| auth_key := "test-deepl-key:fx";
          server_url := "https://api-free.deepl.com" |}
       (OneText "Hello world") None "ES"].
Proof. by vm_compute. Qed.

(** The vendor client is created once and used again by the next call. *)
Example client_is_reused :
  let w1 := (translate echo_remote "Hello" "en" "es" (start free_config)).2 in
  _client (self w1)
    = Some {| auth_key := "test-deepl-key:fx";
              server_url := "https://api-free.deepl.com" |} ∧
  self (translate echo_remote "World" "en" "es" w1).2 = self w1.
Proof. by vm_compute. Qed.

(** A service that returns fewer results than texts were sent: the texts
    left over get the empty response. *)
Example bulk_translate_fewer_results :
  (bulk_translate
     (fixed_remote [ {| result_text := "Hola"; detected_source_lang := Some "EN" |} ])
     ["Hello"; ""; "World"] "en" "es" (start free_config)).1
  = Returned [ success_response "en" "es" "Hola" "en" "Hello";
               empty_response "en" "es";
               empty_response "en" "es" ].
Proof. by vm_compute. Qed.

(** A service that returns more results than texts were sent: the lookup in
    [text_mapping] fails and the whole batch is an error. *)
Example bulk_translate_more_results :
  (bulk_translate
     (fixed_remote [ {| result_text := "Hola"; detected_source_lang := Some "EN" |};
                     {| result_text := "Mundo"; detected_source_lang := Some "EN" |} ])
     ["Hello"; ""] "en" "es" (start free_config)).1
  = Returned [ error_response "en" "es" "Hello" "1";
               error_response "en" "es" "" "1" ].
Proof. by vm_compute. Qed.

(** * Further properties *)

(** ** The vendor client *)

Lemma client_frame R w o w1 :
  client R w = (o, w1) → grows_by w w1 [].
Proof.
  unfold client, set_client, grows_by. run. rewrite app_nil_r.
  destruct (_client (self w)); [by intros [= <- <-]|].
  destruct (new_Translator R _ _); by intros [= <- <-].
Qed.

Lemma client_failed R w e w1 :
  client R w = (Raised e, w1) → w1 = w ∧ _client (self w) = None.
Proof.
  unfold client, set_client. run.
  destruct (_client (self w)); [done|].
  destruct (new_Translator R _ _); [|done]. by intros [= <- <-].
Qed.

(** X1. The vendor client is created at most once.  After an access that
    succeeded, every later access on the same adapter returns the same
    handle without asking the vendor constructor again, whatever that
    constructor would now do; an access that failed leaves the adapter as it
    was, with no handle stored. *)
Theorem client_created_once R w :
  (∀ c w1, client R w = (Returned c, w1) →
     ∀ R' w2, self w2 = self w1 → client R' w2 = (Returned c, w2)) ∧
  (∀ e w1, client R w = (Raised e, w1) → w1 = w ∧ _client (self w) = None).
Proof.
  split.
  - intros c w1 Hc R' w2 Hself. apply client_again. rewrite Hself.
    by eapply client_cached.
  - intros e w1. apply client_failed.
Qed.

Lemma client_created_once_witness :
  client failing_remote
    (translate echo_remote "Hello" "en" "es" (start free_config)).2
  = (Returned {| auth_key := "test-deepl-key:fx";
                 server_url := "https://api-free.deepl.com" |},
     (translate echo_remote "Hello" "en" "es" (start free_config)).2).
Proof.
  refine (proj1 (client_created_once echo_remote (start free_config)) _
            {| self := {| config := free_config;
                          _client := Some {| auth_key := "test-deepl-key:fx";
                                             server_url := "https://api-free.deepl.com" |};
                          is_free_api := true;
                          base_url := "https://api-free.deepl.com" |};
               wire := [] |} _ failing_remote _ _).
  - reflexivity.
  - reflexivity.
Defined.

(** X2. The URL of the vendor client of a new adapter: a non-empty
    [endpoint] of the configuration when there is one, else the free-tier
    URL for a key that ends with ":fx" and the paid-tier URL for any other
    key.  An empty [endpoint] counts as none.  The client holds the key of
    the configuration. *)
Theorem new_client_server_url R cfg c w1 :
  client R (start cfg) = (Returned c, w1) →
  auth_key c = api_key cfg ∧
  server_url c
  = match endpoint cfg with
    | Some (String a e) => String a e
    | _ => if Py.endswith (api_key cfg) ":fx"
           then "https://api-free.deepl.com" else "https://api.deepl.com"
    end.
Proof.
  unfold client, set_client, start. run.
  destruct (new_Translator R _ _); [done|]. intros [= <- _]. simpl.
  split; [done|]. by destruct (endpoint cfg) as [[|a e]|].
Qed.

Lemma new_client_server_url_witness :
  server_url {| auth_key := "test-deepl-key";
                server_url := "https://proxy.example.com" |}
  = "https://proxy.example.com".
Proof.
  refine (proj2 (new_client_server_url echo_remote override_config _
                   {| self := {| config := override_config;
                                 _client := Some {| auth_key := "test-deepl-key";
                                                    server_url := "https://proxy.example.com" |};
                                 is_free_api := false;
                                 base_url := "https://api.deepl.com" |};
                      wire := [] |} _)).
  reflexivity.
Defined.

(** ** The tier of a key *)

Lemma endswith_iff s suffix :
  Py.endswith s suffix = true ↔ ∃ p, s = p +:+ suffix.
Proof.
  induction s as [|c s IH]; cbn [Py.endswith].
  - rewrite orb_false_r. split.
    + intros H%String.eqb_eq. by exists "".
    + intros [[|a p] H]; simpl in H; [by apply String.eqb_eq|done].
  - rewrite orb_true_iff, IH. split.
    + intros [H%String.eqb_eq|[p ->]]; [by exists ""|by exists (String c p)].
    + intros [[|a p] H]; simpl in H.
      * left. by apply String.eqb_eq.
      * right. injection H as -> ->. by exists p.
Qed.

(** X3. The adapter takes exactly the keys of the form [p ++ ":fx"] for
    free-tier keys: its base URL is the free-tier URL for these and the
    paid-tier URL for every other key, the empty key included. *)
Theorem free_tier_iff_suffix cfg :
  ((∃ p, api_key cfg = p +:+ ":fx") →
     is_free_api (__init__ cfg) = true ∧
     base_url (__init__ cfg) = "https://api-free.deepl.com") ∧
  ((¬ ∃ p, api_key cfg = p +:+ ":fx") →
     is_free_api (__init__ cfg) = false ∧
     base_url (__init__ cfg) = "https://api.deepl.com").
Proof.
  unfold __init__, _is_free_api_key. simpl.
  destruct (Py.endswith (api_key cfg) ":fx") eqn:H.
  - split; [done|]. intros Hno. destruct Hno. by apply endswith_iff.
  - split; [|done]. intros Hp%endswith_iff. congruence.
Qed.

Lemma free_tier_iff_suffix_witness :
  is_free_api (__init__ free_config) = true ∧
  base_url (__init__ free_config) = "https://api-free.deepl.com".
Proof.
  apply (free_tier_iff_suffix free_config). by exists "test-deepl-key".
Defined.

(** ** Single translations *)

(** X4. [translate] on a text that is not blank and has at most 30,000
    characters, with codes that map and a vendor client at hand: when the
    service returns a result, the response is a SUCCESS with the translated
    text of the result, the codes as the caller gave them, [char_count] and
    the billed characters equal to the length of the input, and as detected
    language the lower-cased language of the result, or the caller's source
    code as it is when the result names none.  One call went on the wire. *)
Theorem translate_success R text s t w sm tm c w1 r :
  Py.whitespace_only text = false →
  (Py.len text ≤ 30000)%N →
  map_source_lang s = Returned sm →
  map_target_lang t = Returned tm →
  client R w = (Returned c, w1) →
  translate_text R c (OneText text) sm tm = Returned (OneResult r) →
  translate R text s t w
  = (Returned
       {| translated_text := result_text r;
          status := SUCCESS;
          source_lang := s;
          target_lang := t;
          char_count := Py.len text;
          metadata :=
            Some {| detected_language :=
                      match detected_source_lang r with
                      | Some (String a d) => Py.lower (String a d)
                      | _ => s
                      end;
                    confidence := 1;
                    provider := "deepl";
                    model := "deepl-api";
                    billed_characters := Py.len text |};
          error := None |},
     {| self := self w1;
        wire := wire w ++ [CallTranslateText c (OneText text) sm tm] |}).
Proof.
  intros Hs%is_sent_true Hlen%N.ltb_ge Hsm Htm Hc Hres.
  unfold translate, try_except. fold (is_sent text).
  change 30000%N with max_chunk_size in Hlen. rewrite Hs, Hlen.
  cbn [negb]. unfold bind at 1, lift at 1. rewrite Hsm.
  unfold bind at 1, lift at 1. rewrite Htm.
  unfold bind at 1. rewrite Hc, <- (client_wire _ _ _ _ Hc).
  unfold bind at 1, remote_call at 1. rewrite Hres.
  unfold ret, _create_response, success_metadata, sdk_detected_lang.
  by destruct (detected_source_lang r) as [[|a d]|].
Qed.

Lemma translate_success_witness :
  (translate echo_remote (times "a" (N.to_nat 30000)) "en-GB" "pt-BR"
     (start free_config)).1
  = Returned
      (success_response "en-GB" "pt-BR"
         ("<" +:+ times "a" (N.to_nat 30000) +:+ ">") "en"
         (times "a" (N.to_nat 30000))).
Proof.
  rewrite (translate_success echo_remote (times "a" (N.to_nat 30000))
             "en-GB" "pt-BR" (start free_config) (Some "EN") "PT-BR"
             {| auth_key := "test-deepl-key:fx";
                server_url := "https://api-free.deepl.com" |}
             {| self := {| config := free_config;
                           _client := Some {| auth_key := "test-deepl-key:fx";
                                              server_url := "https://api-free.deepl.com" |};
                           is_free_api := true;
                           base_url := "https://api-free.deepl.com" |};
                wire := [] |}
             (echo_result (times "a" (N.to_nat 30000)))
             ltac:(by vm_compute) ltac:(by vm_compute) ltac:(by vm_compute)
             ltac:(by vm_compute) eq_refl eq_refl).
  reflexivity.
Defined.

(** X5. [translate] on such a text when the remote side fails.  If the
    vendor client cannot be created the response is an ERROR with the
    message of the exception and nothing went on the wire; if the call of
    the service raises, one call went on the wire and the response is an
    ERROR.  The message of a [DeepLException] is prefixed with
    "DeepL API error: ", any other exception gives its own message.  The
    response carries the length of the input. *)
Theorem translate_failure R text s t w sm tm :
  Py.whitespace_only text = false →
  (Py.len text ≤ 30000)%N →
  map_source_lang s = Returned sm →
  map_target_lang t = Returned tm →
  (∀ e w1, client R w = (Raised e, w1) →
     translate R text s t w
     = (Returned (_create_response "" s t (Py.len text) None
                    (Some (sync_error_message e))), w)) ∧
  (∀ c w1 e, client R w = (Returned c, w1) →
     translate_text R c (OneText text) sm tm = Raised e →
     translate R text s t w
     = (Returned (_create_response "" s t (Py.len text) None
                    (Some (sync_error_message e))),
        {| self := self w1;
           wire := wire w ++ [CallTranslateText c (OneText text) sm tm] |})) ∧
  (∀ message, sync_error_message (DeepLException message)
              = "DeepL API error: " +:+ message) ∧
  (∀ e, (∀ message, e ≠ DeepLException message) →
        sync_error_message e = str_exn e).
Proof.
  intros Hs%is_sent_true Hlen%N.ltb_ge Hsm Htm.
  change 30000%N with max_chunk_size in Hlen.
  split; [|split; [|split; [done|]]].
  - intros e w1 Hc.
    destruct (client_failed R w e w1 Hc) as [-> _].
    unfold translate, try_except. fold (is_sent text). rewrite Hs, Hlen.
    cbn [negb]. unfold bind at 1, lift at 1. rewrite Hsm.
    unfold bind at 1, lift at 1. rewrite Htm.
    unfold bind at 1. rewrite Hc. by destruct e.
  - intros c w1 e Hc Hres.
    unfold translate, try_except. fold (is_sent text). rewrite Hs, Hlen.
    cbn [negb]. unfold bind at 1, lift at 1. rewrite Hsm.
    unfold bind at 1, lift at 1. rewrite Htm.
    unfold bind at 1. rewrite Hc, <- (client_wire _ _ _ _ Hc).
    unfold bind at 1, remote_call at 1. rewrite Hres. by destruct e.
  - intros e He. destruct e; try done. by destruct (He msg).
Qed.

Lemma translate_failure_witness :
  translate failing_remote "Hello" "en" "es" (start free_config)
  = (Returned (_create_response "" "en" "es" 5 None
                 (Some "DeepL API error: Connection failed")),
     {| self := {| config := free_config;
                   _client := Some {| auth_key := "test-deepl-key:fx";
                                      server_url := "https://api-free.deepl.com" |};
                   is_free_api := true;
                   base_url := "https://api-free.deepl.com" |};
        wire := [CallTranslateText
                   {| auth_key := "test-deepl-key:fx";
                      server_url := "https://api-free.deepl.com" |}
                   (OneText "Hello") (Some "EN") "ES"] |}).
Proof.
  destruct (translate_failure failing_remote "Hello" "en" "es" (start free_config)
              (Some "EN") "ES" ltac:(by vm_compute) ltac:(by vm_compute)
              ltac:(by vm_compute) ltac:(by vm_compute)) as (_ & H & _).
  exact (H _ _ (DeepLException "Connection failed") eq_refl eq_refl).
Defined.

(** X6. [translate_async] on a text that is not blank and has at most
    30,000 characters, with codes that map: one POST went on the wire, to
    the base URL of the adapter followed by "/v2/translate", and the vendor
    client is neither created nor used.  When the answer holds a first
    translation with a text, the response is a SUCCESS with that text and
    the length of the input; the detected language is the lower-cased
    language of the translation, or the lower-cased source code of the
    caller when the translation names none. *)
Theorem translate_async_success R text s t w sm tm tr rest translated :
  Py.whitespace_only text = false →
  (Py.len text ≤ 30000)%N →
  map_source_lang s = Returned sm →
  map_target_lang t = Returned tm →
  session_post R (base_url (self w) +:+ "/v2/translate") (_get_headers R (self w))
    {| data_text := [text]; data_target_lang := tm; data_source_lang := sm |}
    (timeout (config (self w)))
  = Returned {| translations := Some (tr :: rest) |} →
  tr_text tr = Some translated →
  translate_async R text s t w
  = (Returned
       {| translated_text := translated;
          status := SUCCESS;
          source_lang := s;
          target_lang := t;
          char_count := Py.len text;
          metadata :=
            Some {| detected_language :=
                      Py.lower (default s (tr_detected_source_language tr));
                    confidence := 1;
                    provider := "deepl";
                    model := "deepl-api";
                    billed_characters := Py.len text |};
          error := None |},
     {| self := self w;
        wire := wire w ++ [CallPost (base_url (self w) +:+ "/v2/translate")
                             (_get_headers R (self w))
                             {| data_text := [text]; data_target_lang := tm;
                                data_source_lang := sm |}
                             (timeout (config (self w)))] |}).
Proof.
  intros Hs%is_sent_true Hlen%N.ltb_ge Hsm Htm Hpost Htext.
  change 30000%N with max_chunk_size in Hlen.
  unfold translate_async, try_except. fold (is_sent text). rewrite Hs, Hlen.
  cbn [negb]. unfold bind at 1, lift at 1. rewrite Hsm.
  unfold bind at 1, lift at 1. rewrite Htm.
  unfold bind at 1. rewrite post_translate_run, (request_data_source _ s) by done.
  rewrite Hpost. unfold bind at 1, lift at 1, get_translations.
  cbn [translations]. rewrite Htext.
  unfold ret, _create_response, success_metadata, json_detected_lang.
  by destruct (tr_detected_source_language tr).
Qed.

Lemma translate_async_success_witness :
  (translate_async echo_remote "Hello" "auto" "de-DE" (start free_config)).1
  = Returned (success_response "auto" "de-DE" "<Hello>" "en" "Hello").
Proof.
  rewrite (translate_async_success echo_remote "Hello" "auto" "de-DE"
             (start free_config) None "DE" (echo_translation "Hello") []
             "<Hello>"
             ltac:(by vm_compute) ltac:(by vm_compute) ltac:(by vm_compute)
             ltac:(by vm_compute) eq_refl eq_refl).
  reflexivity.
Defined.

(** X7. [translate_async] on such a text when the request fails or the
    answer is malformed: one POST went on the wire and the response is an
    ERROR with the length of the input.  An [aiohttp.ClientError] gives the
    message "DeepL API error: " followed by its text and any other exception
    its own text; an answer without the key "translations" gives
    "'translations'", an empty list of translations gives
    "list index out of range", a first translation without "text" gives
    "'text'". *)
Theorem translate_async_failure R text s t w sm tm :
  Py.whitespace_only text = false →
  (Py.len text ≤ 30000)%N →
  map_source_lang s = Returned sm →
  map_target_lang t = Returned tm →
  let answer :=
    session_post R (base_url (self w) +:+ "/v2/translate") (_get_headers R (self w))
      {| data_text := [text]; data_target_lang := tm; data_source_lang := sm |}
      (timeout (config (self w))) in
  let failed message :=
    (Returned (_create_response "" s t (Py.len text) None (Some message)),
     {| self := self w;
        wire := wire w ++ [CallPost (base_url (self w) +:+ "/v2/translate")
                             (_get_headers R (self w))
                             {| data_text := [text]; data_target_lang := tm;
                                data_source_lang := sm |}
                             (timeout (config (self w)))] |}) in
  (∀ message, answer = Raised (ClientError message) →
     translate_async R text s t w = failed ("DeepL API error: " +:+ message)) ∧
  (∀ e, answer = Raised e → (∀ message, e ≠ ClientError message) →
     translate_async R text s t w = failed (str_exn e)) ∧
  (answer = Returned {| translations := None |} →
     translate_async R text s t w = failed "'translations'") ∧
  (answer = Returned {| translations := Some [] |} →
     translate_async R text s t w = failed "list index out of range") ∧
  (∀ tr rest, answer = Returned {| translations := Some (tr :: rest) |} →
     tr_text tr = None →
     translate_async R text s t w = failed "'text'").
Proof.
  intros Hs%is_sent_true Hlen%N.ltb_ge Hsm Htm answer failed.
  change 30000%N with max_chunk_size in Hlen.
  assert (∀ result,
    answer = result →
    translate_async R text s t w
    = match result with
      | Raised e => failed (async_error_message e)
      | Returned body =>
          match translations body with
          | None => failed "'translations'"
          | Some [] => failed "list index out of range"
          | Some (tr :: _) =>
              match tr_text tr with
              | None => failed "'text'"
              | Some translated => translate_async R text s t w
              end
          end
      end) as Hrun.
  { intros result Hanswer.
    destruct result as [body|e].
    2:{ unfold translate_async, try_except. fold (is_sent text).
        rewrite Hs, Hlen.
        cbn [negb]. unfold bind at 1, lift at 1. rewrite Hsm.
        unfold bind at 1, lift at 1. rewrite Htm.
        unfold bind at 1.
        rewrite post_translate_run, (request_data_source _ s) by done.
        fold answer. rewrite Hanswer. by destruct e. }
    destruct (translations body) as [[|tr all]|] eqn:Hall;
      [| destruct (tr_text tr) eqn:Htext; [done|] |];
      unfold translate_async, try_except; fold (is_sent text);
      rewrite Hs, Hlen;
      cbn [negb]; unfold bind at 1, lift at 1; rewrite Hsm;
      unfold bind at 1, lift at 1; rewrite Htm;
      unfold bind at 1;
      rewrite post_translate_run, (request_data_source _ s) by done;
      fold answer; rewrite Hanswer;
      unfold bind at 1, lift at 1, get_translations; rewrite Hall;
      [done| |done].
    by rewrite Htext. }
  repeat split.
  - intros message H. by rewrite (Hrun _ H).
  - intros e H He. rewrite (Hrun _ H). destruct e; try done. by destruct (He msg).
  - intros H. by rewrite (Hrun _ H).
  - intros H. by rewrite (Hrun _ H).
  - intros tr rest H Htext. rewrite (Hrun _ H). cbn [translations].
    by rewrite Htext.
Qed.

Lemma translate_async_failure_witness :
  translate_async failing_remote "Hello" "en" "es" (start free_config)
  = (Returned (_create_response "" "en" "es" 5 None
                 (Some "DeepL API error: Connection failed")),
     {| self := __init__ free_config;
        wire := [CallPost "https://api-free.deepl.com/v2/translate"
                   [ ("Authorization", "DeepL-Auth-Key test-deepl-key:fx");
                     ("Content-Type", "application/json");
                     ("User-Agent", "mt_providers") ]
                   {| data_text := ["Hello"]; data_target_lang := "ES";
                      data_source_lang := Some "EN" |}
                   30] |}).
Proof.
  destruct (translate_async_failure failing_remote "Hello" "en" "es"
              (start free_config) (Some "EN") "ES"
              ltac:(by vm_compute) ltac:(by vm_compute)
              ltac:(by vm_compute) ltac:(by vm_compute)) as (H & _).
  exact (H "Connection failed" eq_refl).
Defined.

(** ** Unsupported language codes *)

Lemma map_langs_unsupported s t :
  (s ≠ "auto" ∧ supported_language_map !! _get_root_lang_code s = None) ∨
  supported_language_map !! _get_root_lang_code t = None →
  match map_source_lang s with
  | Returned _ => map_target_lang t = Raised (ValueError "Unsupported Language")
  | Raised e => e = ValueError "Unsupported Language"
  end.
Proof.
  intros H. destruct (decide (s = "auto")) as [->|Hs].
  - destruct H as [[? _]|Ht]; [done|].
    change (map_source_lang "auto") with (@Returned (option string) None).
    rewrite map_target_lang_eq, Ht.
    destruct (supported_language_map !! t) as [v|] eqn:Hv; [|done].
    destruct (root_of_key_is_key t) as [v' Hv']; [by eexists|]. congruence.
  - rewrite (map_source_lang_eq s Hs).
    destruct (supported_language_map !! _get_root_lang_code s) eqn:Hroot; [|done].
    destruct H as [[_ ?]|Ht]; [done|].
    rewrite map_target_lang_eq, Ht.
    destruct (supported_language_map !! t) as [v|] eqn:Hv; [|done].
    destruct (root_of_key_is_key t) as [v' Hv']; [by eexists|]. congruence.
Qed.

(** X8. A source code other than "auto" whose root is no key of the
    table, or a target code whose root is no key: every operation that has
    a text to send answers with ERROR responses whose message is
    "Unsupported Language" (one for the text, or one for every text of the
    batch, blank ones included) and leaves the world as it was: nothing is
    sent and no vendor client is created. *)
Theorem unsupported_language_is_error R s t w :
  (s ≠ "auto" ∧ supported_language_map !! _get_root_lang_code s = None) ∨
  supported_language_map !! _get_root_lang_code t = None →
  (∀ text, Py.whitespace_only text = false → (Py.len text ≤ 30000)%N →
     translate R text s t w
       = (Returned (_create_response "" s t (Py.len text) None
                      (Some "Unsupported Language")), w) ∧
     translate_async R text s t w
       = (Returned (_create_response "" s t (Py.len text) None
                      (Some "Unsupported Language")), w)) ∧
  (∀ texts, filter is_sent texts ≠ [] →
     bulk_translate R texts s t w
       = (Returned ((λ text, _create_response "" s t (Py.len text) None
                               (Some "Unsupported Language")) <$> texts), w) ∧
     bulk_translate_async R texts s t w
       = (Returned ((λ text, _create_response "" s t (Py.len text) None
                               (Some "Unsupported Language")) <$> texts), w)).
Proof.
  intros H%map_langs_unsupported. split.
  - intros text Hs%is_sent_true Hlen%N.ltb_ge.
    change 30000%N with max_chunk_size in Hlen.
    unfold translate, translate_async, try_except. fold (is_sent text).
    rewrite Hs, Hlen. cbn [negb]. unfold bind at 1 3, lift at 1 3.
    destruct (map_source_lang s) as [sm|e]; [|by subst e].
    unfold bind at 1 3, lift at 1 3. by rewrite H.
  - intros texts Hsome.
    split; [unfold bulk_translate | unfold bulk_translate_async];
      (destruct (decide (texts = [])) as [->|Hne]; [done|]);
      unfold try_except; rewrite collect_valid_spec;
      rewrite decide_False by done; unfold bind at 1, lift at 1;
      (destruct (map_source_lang s) as [sm|e]; [|by subst e]);
      unfold bind at 1, lift at 1; by rewrite H.
Qed.

Lemma unsupported_language_is_error_witness :
  bulk_translate echo_remote ["Hello"; ""] "en" "tlh" (start free_config)
  = (Returned [ _create_response "" "en" "tlh" 5 None (Some "Unsupported Language");
                _create_response "" "en" "tlh" 0 None (Some "Unsupported Language") ],
     start free_config).
Proof.
  destruct (unsupported_language_is_error echo_remote "en" "tlh" (start free_config)
              ltac:(right; by vm_compute)) as [_ H].
  destruct (H ["Hello"; ""] ltac:(vm_compute; discriminate)) as [Hsync _].
  exact Hsync.
Defined.

(** ** Batches: what the service may answer *)

Lemma scatter_outcome_too_many {X} (mk : X → string → outcome TranslationResponse) :
  (∀ r text, ∃ b, mk r text = Returned b) →
  ∀ texts k results,
    length (filter is_sent texts) < length results →
    scatter_outcome mk k texts results
    = Raised (KeyError (Py.str_N (N.of_nat (k + length (filter is_sent texts))))).
Proof.
  intros Hmk. induction texts as [|text ts IH]; intros k results;
    cbn [scatter_outcome].
  - destruct results; simpl; [lia|]. intros _. by replace (k + 0) with k by lia.
  - destruct (is_sent text) eqn:Ht.
    + rewrite filter_cons_True by (by apply Is_true_true_2).
      destruct results as [|r rs]; simpl; [lia|]. intros Hlen.
      destruct (Hmk r text) as [b ->]. rewrite IH by lia.
      by replace (S k + length (filter is_sent ts))
        with (k + S (length (filter is_sent ts))) by lia.
    + rewrite filter_cons_False by (by apply Is_true_false_2). intros Hlen.
      by rewrite IH by lia.
Qed.

Lemma scatter_outcome_total_on {X} (mk : X → string → outcome TranslationResponse) :
  ∀ texts k results,
    (∀ r text, r ∈ results → ∃ b, mk r text = Returned b) →
    length results ≤ length (filter is_sent texts) →
    ∃ placed, scatter_outcome mk k texts results = Returned placed.
Proof.
  induction texts as [|text ts IH]; intros k results Hmk; cbn [scatter_outcome].
  - destruct results; simpl; [eauto | lia].
  - destruct (is_sent text) eqn:Ht.
    + rewrite filter_cons_True by (by apply Is_true_true_2).
      destruct results as [|r rs]; simpl; [eauto|]. intros Hlen.
      destruct (Hmk r text) as [b ->]; [by left|].
      destruct (IH (S k) rs) as [rest ->]; [|lia|eauto].
      intros r' text' Hr'. apply Hmk. by right.
    + rewrite filter_cons_False by (by apply Is_true_false_2). intros Hlen.
      destruct (IH k results) as [rest ->]; [done|lia|eauto].
Qed.

Lemma scatter_outcome_first_failure {X}
    (mk : X → string → outcome TranslationResponse) (e : exn) :
  (∀ r text, mk r text = Raised e ∨ ∃ b, mk r text = Returned b) →
  ∀ texts k results,
    Exists (λ r, ∀ text, mk r text = Raised e) results →
    length results ≤ length (filter is_sent texts) →
    scatter_outcome mk k texts results = Raised e.
Proof.
  intros Hmk. induction texts as [|text ts IH]; intros k results Hex;
    cbn [scatter_outcome].
  - destruct results; simpl; [by apply Exists_nil in Hex | lia].
  - destruct (is_sent text) eqn:Ht.
    + rewrite filter_cons_True by (by apply Is_true_true_2).
      destruct results as [|r rs]; simpl; [by apply Exists_nil in Hex|].
      intros Hlen. destruct (Hmk r text) as [->|[b Hb]]; [done|]. rewrite Hb.
      rewrite IH; [done| |lia].
      apply Exists_cons in Hex as [Hr|Hrs]; [|done].
      rewrite Hr in Hb. done.
    + rewrite filter_cons_False by (by apply Is_true_false_2). intros Hlen.
      by rewrite IH by (done || lia).
Qed.

(** [bulk_translate_async] on a batch that has a text to send, with
    language codes that map. *)
Lemma bulk_translate_async_sent_run R texts s t w sm tm :
  filter is_sent texts ≠ [] →
  map_source_lang s = Returned sm →
  map_target_lang t = Returned tm →
  bulk_translate_async R texts s t w
  = (Returned
       match session_post R (base_url (self w) +:+ "/v2/translate")
               (_get_headers R (self w))
               {| data_text := filter is_sent texts; data_target_lang := tm;
                  data_source_lang := sm |}
               (timeout (config (self w))) with
       | Raised e => bulk_error_responses s t (async_error_message e) texts
       | Returned body =>
           match translations body with
           | None => bulk_error_responses s t "'translations'" texts
           | Some all =>
               match scatter_outcome
                       (λ tr text,
                          match tr_text tr with
                          | Some translated =>
                              Returned (success_response s t translated
                                          (json_detected_lang tr s) text)
                          | None => Raised (KeyError (Py.repr "text"))
                          end)
                       0 texts all with
               | Returned placed => fill_empty s t placed
               | Raised e => bulk_error_responses s t (async_error_message e) texts
               end
           end
       end,
     {| self := self w;
        wire := wire w ++ [CallPost (base_url (self w) +:+ "/v2/translate")
                             (_get_headers R (self w))
                             {| data_text := filter is_sent texts;
                                data_target_lang := tm; data_source_lang := sm |}
                             (timeout (config (self w)))] |}).
Proof.
  intros Hsome Hsm Htm. unfold bulk_translate_async.
  destruct (decide (texts = [])) as [->|Hne]; [done|].
  unfold try_except. rewrite collect_valid_spec.
  rewrite decide_False by done.
  unfold bind at 1, lift at 1. rewrite Hsm.
  unfold bind at 1, lift at 1. rewrite Htm.
  unfold bind at 1. rewrite post_translate_run, (request_data_source _ s) by done.
  destruct (session_post R _ _ _ _) as [body|e]; [|by destruct e].
  unfold bind at 1, lift at 1, get_translations.
  destruct (translations body) as [all|]; [|done].
  unfold bind at 1, lift at 1.
  rewrite (scatter_collected _ (λ tr text,
             match tr_text tr with
             | Some translated =>
                 Returned (success_response s t translated
                             (json_detected_lang tr s) text)
             | None => Raised (KeyError (Py.repr "text"))
             end))
    by (intros; by apply json_response_build).
  match goal with
  | |- context [scatter_outcome ?mk 0 texts ?rs] =>
      destruct (scatter_outcome mk 0 texts rs) as [placed|e]
  end; [done | by destruct e].
Qed.

(** X9. When the service returns more results than texts were sent,
    [bulk_translate] gives up the whole batch: every text, the ones with a
    result included, gets an ERROR response whose message is the number of
    texts sent (the key that [text_mapping] does not have). *)
Theorem bulk_translate_too_many_results R texts s t w sm tm c w1 results :
  filter is_sent texts ≠ [] →
  map_source_lang s = Returned sm →
  map_target_lang t = Returned tm →
  client R w = (Returned c, w1) →
  translate_text R c (TextList (filter is_sent texts)) sm tm = Returned results →
  length (filter is_sent texts) < length (as_list results) →
  (bulk_translate R texts s t w).1
  = Returned ((λ text, _create_response "" s t (Py.len text) None
                         (Some (Py.str_N (N.of_nat (length (filter is_sent texts))))))
                <$> texts).
Proof.
  intros Hsome Hsm Htm Hc Hres Hlen.
  rewrite (bulk_translate_sent_run R texts s t w sm tm c w1) by done.
  rewrite Hres. cbn [fst].
  by rewrite scatter_outcome_too_many by eauto.
Qed.

Lemma bulk_translate_too_many_results_witness :
  (bulk_translate
     (fixed_remote [ {| result_text := "Hola"; detected_source_lang := Some "EN" |};
                     {| result_text := "Mundo"; detected_source_lang := Some "EN" |} ])
     ["Hello"; ""] "en" "es" (start free_config)).1
  = Returned [ _create_response "" "en" "es" 5 None (Some "1");
               _create_response "" "en" "es" 0 None (Some "1") ].
Proof.
  exact (bulk_translate_too_many_results
           (fixed_remote [ {| result_text := "Hola"; detected_source_lang := Some "EN" |};
                           {| result_text := "Mundo"; detected_source_lang := Some "EN" |} ])
           ["Hello"; ""] "en" "es" (start free_config) (Some "EN") "ES"
           {| auth_key := "test-deepl-key:fx";
              server_url := "https://api-free.deepl.com" |}
           {| self := {| config := free_config;
                         _client := Some {| auth_key := "test-deepl-key:fx";
                                            server_url := "https://api-free.deepl.com" |};
                         is_free_api := true;
                         base_url := "https://api-free.deepl.com" |};
              wire := [] |}
           _ ltac:(vm_compute; discriminate) eq_refl eq_refl eq_refl eq_refl
           ltac:(vm_compute; lia)).
Defined.

(** X10. When the service returns fewer results than texts were sent,
    [bulk_translate] reports no error: the results go to the first texts
    sent, in order, and every sent text that is left without a result gets
    the empty SUCCESS response with [char_count] 0, like a blank text. *)
Theorem bulk_translate_fewer_results_general R texts s t w sm tm c w1 results :
  filter is_sent texts ≠ [] →
  map_source_lang s = Returned sm →
  map_target_lang t = Returned tm →
  client R w = (Returned c, w1) →
  translate_text R c (TextList (filter is_sent texts)) sm tm = Returned results →
  length (as_list results) ≤ length (filter is_sent texts) →
  (bulk_translate R texts s t w).1
    = Returned (in_order_responses s t texts (sdk_view s <$> as_list results)) ∧
  ∀ i text, texts !! i = Some text →
    length (as_list results) ≤ length (filter is_sent (take i texts)) →
    in_order_responses s t texts (sdk_view s <$> as_list results) !! i
    = Some (_create_response "" s t 0 None None).
Proof.
  intros Hsome Hsm Htm Hc Hres Hlen.
  rewrite (bulk_translate_sent_run R texts s t w sm tm c w1) by done.
  rewrite Hres. cbn [fst]. split.
  - destruct (scatter_outcome_total
                (λ r text, Returned (success_response s t (sdk_view s r).1
                                       (sdk_view s r).2 text))
                ltac:(eauto) texts 0 (as_list results) Hlen)
      as [placed Hplaced].
    rewrite Hplaced. f_equal.
    eapply fill_scatter_outcome; [|exact Hplaced]. by intros r text b [= <-].
  - intros i text Hi Hrank. rewrite (in_order_responses_lookup _ _ _ _ _ _ Hi).
    destruct (is_sent text); [|done].
    rewrite list_lookup_fmap, lookup_ge_None_2 by done. done.
Qed.

Lemma bulk_translate_fewer_results_general_witness :
  (bulk_translate
     (fixed_remote [ {| result_text := "Hola"; detected_source_lang := Some "EN" |} ])
     ["Hello"; ""; "World"] "en" "es" (start free_config)).1
  = Returned [ success_response "en" "es" "Hola" "en" "Hello";
               _create_response "" "en" "es" 0 None None;
               _create_response "" "en" "es" 0 None None ].
Proof.
  exact (proj1 (bulk_translate_fewer_results_general
           (fixed_remote [ {| result_text := "Hola"; detected_source_lang := Some "EN" |} ])
           ["Hello"; ""; "World"] "en" "es" (start free_config) (Some "EN") "ES"
           {| auth_key := "test-deepl-key:fx";
              server_url := "https://api-free.deepl.com" |}
           {| self := {| config := free_config;
                         _client := Some {| auth_key := "test-deepl-key:fx";
                                            server_url := "https://api-free.deepl.com" |};
                         is_free_api := true;
                         base_url := "https://api-free.deepl.com" |};
              wire := [] |}
           _ ltac:(vm_compute; discriminate) eq_refl eq_refl eq_refl eq_refl
           ltac:(vm_compute; lia))).
Defined.

(** X11. The limit of 30,000 characters is not applied to batches: a text
    over the limit that is not blank is part of the one request that
    [bulk_translate] and [bulk_translate_async] send, while [translate]
    sends nothing for the same text. *)
Theorem bulk_sends_text_over_limit R texts text s t w sm tm c w1 :
  text ∈ texts →
  (30000 < Py.len text)%N →
  Py.whitespace_only text = false →
  map_source_lang s = Returned sm →
  map_target_lang t = Returned tm →
  client R w = (Returned c, w1) →
  text ∈ filter is_sent texts ∧
  wire (bulk_translate R texts s t w).2
    = wire w ++ [CallTranslateText c (TextList (filter is_sent texts)) sm tm] ∧
  wire (bulk_translate_async R texts s t w).2
    = wire w ++ [CallPost (base_url (self w) +:+ "/v2/translate")
                   (_get_headers R (self w))
                   {| data_text := filter is_sent texts; data_target_lang := tm;
                      data_source_lang := sm |}
                   (timeout (config (self w)))] ∧
  wire (translate R text s t w).2 = wire w.
Proof.
  intros Hin Hlen Hw Hsm Htm Hc.
  assert (text ∈ filter is_sent texts) as Hsent.
  { apply list_elem_of_filter. split; [|done].
    apply Is_true_true_2. by apply is_sent_true. }
  assert (filter is_sent texts ≠ []) as Hsome.
  { intros Hnil. rewrite Hnil in Hsent. by apply elem_of_nil in Hsent. }
  split; [done|]. split; [|split].
  - by rewrite (bulk_translate_sent_run R texts s t w sm tm c w1).
  - by rewrite (bulk_translate_async_sent_run R texts s t w sm tm).
  - by rewrite translate_too_long.
Qed.

Lemma bulk_sends_text_over_limit_witness :
  wire (bulk_translate echo_remote [times "a" (N.to_nat 30001)] "en" "es"
          (start free_config)).2
  = [CallTranslateText
       {| auth_key := "test-deepl-key:fx";
          server_url := "https://api-free.deepl.com" |}
       (TextList (filter is_sent [times "a" (N.to_nat 30001)])) (Some "EN") "ES"].
Proof.
  refine (proj1 (proj2 (bulk_sends_text_over_limit echo_remote
           [times "a" (N.to_nat 30001)] (times "a" (N.to_nat 30001))
           "en" "es" (start free_config) (Some "EN") "ES"
           {| auth_key := "test-deepl-key:fx";
              server_url := "https://api-free.deepl.com" |}
           {| self := {| config := free_config;
                         _client := Some {| auth_key := "test-deepl-key:fx";
                                            server_url := "https://api-free.deepl.com" |};
                         is_free_api := true;
                         base_url := "https://api-free.deepl.com" |};
              wire := [] |}
           _ _ _ eq_refl eq_refl eq_refl))).
  - by left.
  - by vm_compute.
  - by vm_compute.
Defined.

(** X12. [bulk_translate_async] on a batch with a text to send and codes
    that map sends one POST with the texts that are not blank, in their
    order, and does not touch the vendor client.  When the answer has one
    translation with a text for every text sent, the responses are these
    translations placed back at the positions of their texts, with the
    detected language lower-cased (the lower-cased source code of the
    caller when a translation names none), and the blank positions hold the
    empty SUCCESS response. *)
Theorem bulk_translate_async_one_post_scatter R texts s t w sm tm all :
  filter is_sent texts ≠ [] →
  map_source_lang s = Returned sm →
  map_target_lang t = Returned tm →
  session_post R (base_url (self w) +:+ "/v2/translate") (_get_headers R (self w))
    {| data_text := filter is_sent texts; data_target_lang := tm;
       data_source_lang := sm |}
    (timeout (config (self w)))
  = Returned {| translations := Some all |} →
  Forall (λ tr, is_Some (tr_text tr)) all →
  length all = length (filter is_sent texts) →
  bulk_translate_async R texts s t w
  = (Returned (in_order_responses s t texts (json_view s <$> all)),
     {| self := self w;
        wire := wire w ++ [CallPost (base_url (self w) +:+ "/v2/translate")
                             (_get_headers R (self w))
                             {| data_text := filter is_sent texts;
                                data_target_lang := tm; data_source_lang := sm |}
                             (timeout (config (self w)))] |}) ∧
  ∀ i text, texts !! i = Some text →
    in_order_responses s t texts (json_view s <$> all) !! i
    = if Py.whitespace_only text
      then Some (_create_response "" s t 0 None None)
      else (λ tr, success_response s t (default "" (tr_text tr))
                    (Py.lower (default s (tr_detected_source_language tr))) text)
             <$> all !! length (filter is_sent (take i texts)).
Proof.
  intros Hsome Hsm Htm Hpost Htexts Hlen.
  rewrite (bulk_translate_async_sent_run R texts s t w sm tm) by done.
  rewrite Hpost. cbn [translations]. split.
  - destruct (scatter_outcome_total_on
                (λ tr text,
                   match tr_text tr with
                   | Some translated =>
                       Returned (success_response s t translated
                                   (json_detected_lang tr s) text)
                   | None => Raised (KeyError (Py.repr "text"))
                   end) texts 0 all) as [placed Hplaced]; [|lia|].
    + intros tr text Htr.
      rewrite Forall_forall in Htexts. destruct (Htexts tr Htr) as [x ->]. eauto.
    + rewrite Hplaced. do 2 f_equal.
      eapply (fill_scatter_outcome _ (json_view s)); [|exact Hplaced].
      intros r text b. unfold json_view. by destruct (tr_text r); intros [= <-].
  - intros i text Hi. rewrite (in_order_responses_lookup _ _ _ _ _ _ Hi).
    rewrite is_sent_whitespace_only.
    destruct (Py.whitespace_only text) eqn:Hw; simpl; [done|].
    rewrite list_lookup_fmap.
    destruct (all !! _) as [tr|] eqn:Hr; simpl.
    + unfold json_detected_lang. by destruct (tr_detected_source_language tr).
    + apply lookup_ge_None in Hr.
      pose proof (rank_lt texts i text Hi (is_sent_true _ Hw)). lia.
Qed.

Lemma bulk_translate_async_one_post_scatter_witness :
  (bulk_translate_async echo_remote ["Hello"; " "; "World"] "en-US" "es"
     (start free_config)).1
  = Returned [ success_response "en-US" "es" "<Hello>" "en" "Hello";
               empty_response "en-US" "es";
               success_response "en-US" "es" "<World>" "en" "World" ].
Proof.
  destruct (bulk_translate_async_one_post_scatter echo_remote
              ["Hello"; " "; "World"] "en-US" "es" (start free_config)
              (Some "EN") "ES" [echo_translation "Hello"; echo_translation "World"]
              ltac:(vm_compute; discriminate) ltac:(by vm_compute)
              ltac:(by vm_compute) eq_refl
              ltac:(repeat constructor; by eexists) eq_refl) as [-> _].
  reflexivity.
Defined.

(** X13. A malformed answer to [bulk_translate_async] costs the whole
    batch: without the key "translations" every text gets an ERROR response
    with the message "'translations'"; with a translation that lacks "text"
    (and no more translations than texts sent) every text gets an ERROR
    response with the message "'text'", also the texts whose translations
    were complete. *)
Theorem bulk_translate_async_malformed R texts s t w sm tm :
  filter is_sent texts ≠ [] →
  map_source_lang s = Returned sm →
  map_target_lang t = Returned tm →
  let answer :=
    session_post R (base_url (self w) +:+ "/v2/translate") (_get_headers R (self w))
      {| data_text := filter is_sent texts; data_target_lang := tm;
         data_source_lang := sm |}
      (timeout (config (self w))) in
  (answer = Returned {| translations := None |} →
   (bulk_translate_async R texts s t w).1
   = Returned ((λ text, _create_response "" s t (Py.len text) None
                          (Some "'translations'")) <$> texts)) ∧
  (∀ all, answer = Returned {| translations := Some all |} →
     Exists (λ tr, tr_text tr = None) all →
     length all ≤ length (filter is_sent texts) →
     (bulk_translate_async R texts s t w).1
     = Returned ((λ text, _create_response "" s t (Py.len text) None
                            (Some "'text'")) <$> texts)).
Proof.
  intros Hsome Hsm Htm answer.
  rewrite (bulk_translate_async_sent_run R texts s t w sm tm) by done.
  fold answer. split.
  - by intros ->.
  - intros all -> Hex Hlen. cbn [translations fst].
    rewrite (scatter_outcome_first_failure _ (KeyError (Py.repr "text"))); [done| | |done].
    + intros tr text. destruct (tr_text tr); eauto.
    + eapply Exists_impl; [exact Hex|]. by intros tr -> text.
Qed.

Lemma bulk_translate_async_malformed_witness :
  (bulk_translate_async
     {| new_Translator := new_Translator echo_remote;
        translate_text := translate_text echo_remote;
        session_post := λ _ _ _ _, Returned {| translations := None |};
        get_source_languages := get_source_languages echo_remote;
        get_target_languages := get_target_languages echo_remote;
        get_usage := get_usage echo_remote;
        get_user_agent := "mt_providers" |}
     ["Hello"; ""] "en" "es" (start free_config)).1
  = Returned [ _create_response "" "en" "es" 5 None (Some "'translations'");
               _create_response "" "en" "es" 0 None (Some "'translations'") ].
Proof.
  refine (proj1 (bulk_translate_async_malformed _ ["Hello"; ""] "en" "es"
                   (start free_config) (Some "EN") "ES" _ _ _) _).
  - vm_compute; discriminate.
  - by vm_compute.
  - by vm_compute.
  - reflexivity.
Defined.

(** X14. A transport failure in a batch: when the one call of
    [bulk_translate] raises, or the one POST of [bulk_translate_async]
    raises, the operation returns one ERROR response per input text, in
    input order, each with the length of its own text and all with the same
    message. *)
Theorem bulk_transport_failure R texts s t w sm tm e :
  filter is_sent texts ≠ [] →
  map_source_lang s = Returned sm →
  map_target_lang t = Returned tm →
  (∀ c w1, client R w = (Returned c, w1) →
     translate_text R c (TextList (filter is_sent texts)) sm tm = Raised e →
     (bulk_translate R texts s t w).1
     = Returned ((λ text, _create_response "" s t (Py.len text) None
                            (Some (sync_error_message e))) <$> texts)) ∧
  (session_post R (base_url (self w) +:+ "/v2/translate") (_get_headers R (self w))
     {| data_text := filter is_sent texts; data_target_lang := tm;
        data_source_lang := sm |}
     (timeout (config (self w))) = Raised e →
   (bulk_translate_async R texts s t w).1
   = Returned ((λ text, _create_response "" s t (Py.len text) None
                          (Some (async_error_message e))) <$> texts)).
Proof.
  intros Hsome Hsm Htm. split.
  - intros c w1 Hc Hres.
    rewrite (bulk_translate_sent_run R texts s t w sm tm c w1) by done.
    by rewrite Hres.
  - intros Hpost.
    rewrite (bulk_translate_async_sent_run R texts s t w sm tm) by done.
    by rewrite Hpost.
Qed.

Lemma bulk_transport_failure_witness :
  (bulk_translate_async failing_remote ["Hello"; "  "; "Hi"] "en" "es"
     (start free_config)).1
  = Returned [ _create_response "" "en" "es" 5 None
                 (Some "DeepL API error: Connection failed");
               _create_response "" "en" "es" 2 None
                 (Some "DeepL API error: Connection failed");
               _create_response "" "en" "es" 2 None
                 (Some "DeepL API error: Connection failed") ].
Proof.
  refine (proj2 (bulk_transport_failure failing_remote ["Hello"; "  "; "Hi"]
                   "en" "es" (start free_config) (Some "EN") "ES"
                   (ClientError "Connection failed") _ _ _) _).
  - vm_compute; discriminate.
  - by vm_compute.
  - by vm_compute.
  - reflexivity.
Defined.

(** ** What an operation does to the world *)

Lemma grows_by_refl w : grows_by w w [].
Proof. unfold grows_by. by rewrite app_nil_r. Qed.

Lemma grows_by_call w w1 call :
  grows_by w w1 [] →
  grows_by w {| self := self w1; wire := wire w1 ++ [call] |} [call].
Proof. unfold grows_by. simpl. intros (-> & -> & -> & ->). by rewrite app_nil_r. Qed.

Lemma map_target_lang_code t tm :
  map_target_lang t = Returned tm → ∃ k, supported_language_map !! k = Some tm.
Proof.
  rewrite map_target_lang_eq.
  destruct (supported_language_map !! t) as [v|] eqn:Hv; [intros [= <-]; eauto|].
  destruct (supported_language_map !! _get_root_lang_code t) as [v|] eqn:Hr;
    [intros [= <-]; eauto | done].
Qed.

Lemma filter_is_sent_not_blank texts :
  Forall (λ x, Py.whitespace_only x = false) (filter is_sent texts).
Proof.
  apply Forall_forall. intros x [Hx _]%list_elem_of_filter.
  apply Is_true_true_1 in Hx. rewrite is_sent_whitespace_only in Hx.
  by destruct (Py.whitespace_only x).
Qed.

Lemma translate_world R text s t w :
  ∃ calls, length calls ≤ 1 ∧ Forall well_sent calls ∧
    grows_by w (translate R text s t w).2 calls.
Proof.
  pose proof (grows_by_refl w) as Hrefl.
  unfold translate, try_except. fold (is_sent text).
  destruct (is_sent text) eqn:Hs;
    [|exists []; split; [simpl; lia | split; [constructor | exact Hrefl]]].
  cbn [negb].
  destruct (_ <? _)%N;
    [exists []; split; [simpl; lia | split; [constructor | exact Hrefl]]|].
  unfold bind at 1, lift at 1.
  destruct (map_source_lang s) as [sm|e];
    [|destruct e; exists []; (split; [simpl; lia | split; [constructor | exact Hrefl]])].
  unfold bind at 1, lift at 1.
  destruct (map_target_lang t) as [tm|e] eqn:Htm;
    [|destruct e; exists []; (split; [simpl; lia | split; [constructor | exact Hrefl]])].
  unfold bind at 1.
  destruct (client R w) as [[c|e] w1] eqn:Hc; apply client_frame in Hc;
    [|destruct e; exists []; (split; [simpl; lia | split; [constructor | exact Hc]])].
  unfold bind at 1, remote_call at 1.
  eexists [_]. split; [simpl; lia|]. split.
  2:{ destruct (translate_text R c _ sm tm) as [[r|rs]|e]; try destruct e;
        by apply grows_by_call. }
  repeat constructor; [done| |].
  - rewrite is_sent_whitespace_only in Hs. by destruct (Py.whitespace_only text).
  - simpl. destruct (map_target_lang_code t tm Htm) as [k Hk]. eauto.
Qed.

Lemma bulk_translate_world R texts s t w :
  ∃ calls, length calls ≤ 1 ∧ Forall well_sent calls ∧
    grows_by w (bulk_translate R texts s t w).2 calls.
Proof.
  pose proof (grows_by_refl w) as Hrefl.
  unfold bulk_translate.
  destruct (decide (texts = []));
    [exists []; split; [simpl; lia | split; [constructor | exact Hrefl]]|].
  unfold try_except. rewrite collect_valid_spec.
  destruct (decide (filter is_sent texts = []));
    [exists []; split; [simpl; lia | split; [constructor | exact Hrefl]]|].
  unfold bind at 1, lift at 1.
  destruct (map_source_lang s) as [sm|e];
    [|destruct e; exists []; (split; [simpl; lia | split; [constructor | exact Hrefl]])].
  unfold bind at 1, lift at 1.
  destruct (map_target_lang t) as [tm|e] eqn:Htm;
    [|destruct e; exists []; (split; [simpl; lia | split; [constructor | exact Hrefl]])].
  unfold bind at 1.
  destruct (client R w) as [[c|e] w1] eqn:Hc; apply client_frame in Hc;
    [|destruct e; exists []; (split; [simpl; lia | split; [constructor | exact Hc]])].
  unfold bind at 1, remote_call at 1.
  eexists [_]. split; [simpl; lia|]. split.
  2:{ destruct (translate_text R c _ sm tm) as [results|e];
        [|destruct e; by apply grows_by_call].
      unfold bind at 1, lift at 1.
      destruct (for_each _ _ _) as [placed|e]; try destruct e;
        by apply grows_by_call. }
  repeat constructor; [done|apply filter_is_sent_not_blank|].
  simpl. destruct (map_target_lang_code t tm Htm) as [k Hk]. eauto.
Qed.

Lemma translate_async_world R text s t w :
  ∃ calls, length calls ≤ 1 ∧ Forall well_sent calls ∧
    (translate_async R text s t w).2
    = {| self := self w; wire := wire w ++ calls |}.
Proof.
  assert (w = {| self := self w; wire := wire w ++ [] |}) as Hrefl
    by (rewrite app_nil_r; by destruct w).
  unfold translate_async, try_except. fold (is_sent text).
  destruct (is_sent text) eqn:Hs;
    [|exists []; split; [simpl; lia | split; [constructor | exact Hrefl]]].
  cbn [negb].
  destruct (_ <? _)%N;
    [exists []; split; [simpl; lia | split; [constructor | exact Hrefl]]|].
  unfold bind at 1, lift at 1.
  destruct (map_source_lang s) as [sm|e];
    [|destruct e; exists []; (split; [simpl; lia | split; [constructor | exact Hrefl]])].
  unfold bind at 1, lift at 1.
  destruct (map_target_lang t) as [tm|e] eqn:Htm;
    [|destruct e; exists []; (split; [simpl; lia | split; [constructor | exact Hrefl]])].
  unfold bind at 1. rewrite post_translate_run.
  eexists [_]. split; [simpl; lia|]. split.
  2:{ destruct (session_post R _ _ _ _) as [result|e]; [|by destruct e].
      unfold bind at 1, lift at 1.
      destruct (get_translations result) as [[|tr all]|e]; [done| |by destruct e].
      by destruct (tr_text tr). }
  repeat constructor; [done| |].
  - rewrite is_sent_whitespace_only in Hs. by destruct (Py.whitespace_only text).
  - simpl. destruct (map_target_lang_code t tm Htm) as [k Hk]. eauto.
Qed.

Lemma bulk_translate_async_world R texts s t w :
  ∃ calls, length calls ≤ 1 ∧ Forall well_sent calls ∧
    (bulk_translate_async R texts s t w).2
    = {| self := self w; wire := wire w ++ calls |}.
Proof.
  assert (w = {| self := self w; wire := wire w ++ [] |}) as Hrefl
    by (rewrite app_nil_r; by destruct w).
  unfold bulk_translate_async.
  destruct (decide (texts = []));
    [exists []; split; [simpl; lia | split; [constructor | exact Hrefl]]|].
  unfold try_except. rewrite collect_valid_spec.
  destruct (decide (filter is_sent texts = []));
    [exists []; split; [simpl; lia | split; [constructor | exact Hrefl]]|].
  unfold bind at 1, lift at 1.
  destruct (map_source_lang s) as [sm|e];
    [|destruct e; exists []; (split; [simpl; lia | split; [constructor | exact Hrefl]])].
  unfold bind at 1, lift at 1.
  destruct (map_target_lang t) as [tm|e] eqn:Htm;
    [|destruct e; exists []; (split; [simpl; lia | split; [constructor | exact Hrefl]])].
  unfold bind at 1. rewrite post_translate_run.
  eexists [_]. split; [simpl; lia|]. split.
  2:{ destruct (session_post R _ _ _ _) as [result|e]; [|by destruct e].
      unfold bind at 1, lift at 1.
      destruct (get_translations result) as [all|e]; [|by destruct e].
      unfold bind at 1, lift at 1.
      destruct (for_each _ _ _) as [placed|e]; [done|by destruct e]. }
  repeat constructor; [done|apply filter_is_sent_not_blank|].
  simpl. destruct (map_target_lang_code t tm Htm) as [k Hk]. eauto.
Qed.

(** X15. Every translate operation puts at most one call on the wire, in
    whatever way it ends, keeps the calls that were there, and never
    changes the configuration, the tier or the base URL of the adapter.
    The two async operations leave the adapter exactly as it was: they do
    not create, read or replace the vendor client. *)
Theorem translate_operations_at_most_one_call R text texts s t w :
  (∃ calls, length calls ≤ 1 ∧ grows_by w (translate R text s t w).2 calls) ∧
  (∃ calls, length calls ≤ 1 ∧ grows_by w (bulk_translate R texts s t w).2 calls) ∧
  (∃ calls, length calls ≤ 1 ∧
     (translate_async R text s t w).2
     = {| self := self w; wire := wire w ++ calls |}) ∧
  (∃ calls, length calls ≤ 1 ∧
     (bulk_translate_async R texts s t w).2
     = {| self := self w; wire := wire w ++ calls |}).
Proof.
  destruct (translate_world R text s t w) as (c1 & ? & _ & ?).
  destruct (bulk_translate_world R texts s t w) as (c2 & ? & _ & ?).
  destruct (translate_async_world R text s t w) as (c3 & ? & _ & ?).
  destruct (bulk_translate_async_world R texts s t w) as (c4 & ? & _ & ?).
  split; [by exists c1|]. split; [by exists c2|].
  split; [by exists c3|by exists c4].
Qed.

(** X16. What the adapter never sends.  Whatever the texts and the codes,
    a call that a translate operation adds to the wire carries at least one
    text, carries no empty or whitespace-only text, and names a target code
    that is a code of the mapping table: blank texts and codes that the
    table does not know never reach the service. *)
Theorem requests_are_well_sent R text texts s t w :
  (∀ call, call ∈ wire (translate R text s t w).2 →
           call ∈ wire w ∨ well_sent call) ∧
  (∀ call, call ∈ wire (bulk_translate R texts s t w).2 →
           call ∈ wire w ∨ well_sent call) ∧
  (∀ call, call ∈ wire (translate_async R text s t w).2 →
           call ∈ wire w ∨ well_sent call) ∧
  (∀ call, call ∈ wire (bulk_translate_async R texts s t w).2 →
           call ∈ wire w ∨ well_sent call).
Proof.
  destruct (translate_world R text s t w) as (c1 & _ & H1 & (E1 & _)).
  destruct (bulk_translate_world R texts s t w) as (c2 & _ & H2 & (E2 & _)).
  destruct (translate_async_world R text s t w) as (c3 & _ & H3 & E3).
  destruct (bulk_translate_async_world R texts s t w) as (c4 & _ & H4 & E4).
  rewrite E1, E2, E3, E4. cbn [wire].
  rewrite Forall_forall in H1, H2, H3, H4.
  repeat split; intros call [?|?]%elem_of_app; auto.
Qed.

Lemma requests_are_well_sent_witness :
  well_sent (CallTranslateText
               {| auth_key := "test-deepl-key:fx";
                  server_url := "https://api-free.deepl.com" |}
               (TextList ["Hello"; "World"]) (Some "EN") "ES").
Proof.
  destruct (requests_are_well_sent echo_remote "" ["Hello"; " "; "World"]
              "en" "es" (start free_config)) as (_ & H & _).
  assert (wire (bulk_translate echo_remote ["Hello"; " "; "World"] "en" "es"
                  (start free_config)).2
          = [CallTranslateText
               {| auth_key := "test-deepl-key:fx";
                  server_url := "https://api-free.deepl.com" |}
               (TextList ["Hello"; "World"]) (Some "EN") "ES"]) as E
    by (by vm_compute).
  rewrite E in H.
  destruct (H _ (list_elem_of_here _ _)) as [Hin|Hsent].
  - apply list_elem_of_In in Hin. destruct Hin.
  - exact Hsent.
Defined.

(** ** The read operations when the service answers *)

(** X17. [get_supported_languages] with a vendor client at hand and both
    queries answered: the dict holds under "source" and "target" the codes
    of the languages the service named, lower-cased and in the order of the
    service, and nothing else; the two queries went on the wire, the one
    for the source languages first, both through the same client. *)
Theorem get_supported_languages_success R w c w1 src tgt :
  client R w = (Returned c, w1) →
  get_source_languages R c = Returned src →
  get_target_languages R c = Returned tgt →
  ∃ d, get_supported_languages R w
       = (Returned d,
          {| self := self w1;
             wire := wire w ++ [CallGetSourceLanguages c;
                                CallGetTargetLanguages c] |}) ∧
       d !! "source" = Some ((λ lang, Py.lower (code lang)) <$> src) ∧
       d !! "target" = Some ((λ lang, Py.lower (code lang)) <$> tgt) ∧
       ∀ k, k ≠ "source" → k ≠ "target" → d !! k = None.
Proof.
  intros Hc Hsrc Htgt. eexists. split; [|split; [|split]].
  - unfold get_supported_languages, try_except.
    unfold bind at 1. rewrite Hc. unfold bind at 1, remote_call at 1.
    rewrite Hsrc. unfold bind at 1.
    rewrite (client_again R {| self := self w1; wire := wire w1 ++ _ |} c)
      by (simpl; by eapply client_cached).
    unfold bind at 1, remote_call at 1. rewrite Htgt.
    cbn [self wire]. rewrite (client_wire _ _ _ _ Hc), <- app_assoc. done.
  - by rewrite lookup_insert_eq.
  - rewrite lookup_insert_ne by done. by rewrite lookup_singleton_eq.
  - intros k Hs Ht. rewrite lookup_insert_ne by done.
    by rewrite lookup_singleton_ne.
Qed.

Lemma get_supported_languages_success_witness :
  ∃ d, get_supported_languages echo_remote (start free_config)
       = (Returned d,
          {| self := {| config := free_config;
                        _client := Some {| auth_key := "test-deepl-key:fx";
                                           server_url := "https://api-free.deepl.com" |};
                        is_free_api := true;
                        base_url := "https://api-free.deepl.com" |};
             wire := [CallGetSourceLanguages
                        {| auth_key := "test-deepl-key:fx";
                           server_url := "https://api-free.deepl.com" |};
                      CallGetTargetLanguages
                        {| auth_key := "test-deepl-key:fx";
                           server_url := "https://api-free.deepl.com" |}] |}) ∧
       d !! "source" = Some ["en"] ∧ d !! "target" = Some ["es"].
Proof.
  destruct (get_supported_languages_success echo_remote (start free_config)
              _ _ [ {| code := "EN" |} ] [ {| code := "ES" |} ]
              eq_refl eq_refl eq_refl) as (d & Hrun & Hsrc & Htgt & _).
  exists d. by repeat split.
Defined.

(** X18. [get_usage_info] with a vendor client at hand and the usage query
    answered.  When the usage has its character detail, the dict holds the
    character count and limit of the service, [False] for
    "character_limit_reached" when the detail has no such attribute, and 0
    for the counts and limits of documents and team documents when the
    usage has no such details.  When the usage has no character detail,
    the result is the empty dict. *)
Theorem get_usage_info_success R w c w1 usage :
  client R w = (Returned c, w1) →
  get_usage R c = Returned usage →
  (character usage = None → (get_usage_info R w).1 = Returned ∅) ∧
  (∀ ch, character usage = Some ch →
     ∃ d, (get_usage_info R w).1 = Returned d ∧
       d !! "character_count" = Some (count ch) ∧
       d !! "character_limit" = Some (limit ch) ∧
       d !! "character_limit_reached"
         = Some (match limit_reached ch with Some v => v | None => VBool false end) ∧
       d !! "document_count"
         = Some (match document usage with Some doc => count doc | None => VInt 0 end) ∧
       d !! "document_limit"
         = Some (match document usage with Some doc => limit doc | None => VInt 0 end) ∧
       d !! "team_document_count"
         = Some (match team_document usage with
                 | Some doc => count doc | None => VInt 0 end) ∧
       d !! "team_document_limit"
         = Some (match team_document usage with
                 | Some doc => limit doc | None => VInt 0 end) ∧
       size d = 7).
Proof.
  intros Hc Husage. split.
  - intros Hch. unfold get_usage_info, try_except.
    unfold bind at 1. rewrite Hc. unfold bind at 1, remote_call at 1.
    rewrite Husage. unfold bind at 1, lift at 1. by rewrite Hch.
  - intros ch Hch. eexists. split.
    + unfold get_usage_info, try_except.
      unfold bind at 1. rewrite Hc. unfold bind at 1, remote_call at 1.
      rewrite Husage. unfold bind at 1, lift at 1. rewrite Hch. done.
    + split; [done|]. repeat split;
        try (repeat (rewrite lookup_insert_ne by done);
             first [ by rewrite lookup_insert_eq
                   | rewrite lookup_singleton_eq;
                     by destruct (document usage), (team_document usage),
                          (limit_reached ch) ]).
Qed.

Lemma get_usage_info_success_witness :
  ∃ d, (get_usage_info echo_remote (start free_config)).1 = Returned d ∧
       d !! "character_count" = Some (VInt 12345) ∧
       d !! "character_limit" = Some (VInt 500000) ∧
       d !! "character_limit_reached" = Some (VBool false) ∧
       d !! "document_count" = Some (VInt 0).
Proof.
  destruct (get_usage_info_success echo_remote (start free_config) _ _ _
              eq_refl eq_refl) as [_ H].
  destruct (H _ eq_refl) as (d & Hrun & H1 & H2 & H3 & H4 & _).
  exists d. by repeat split.
Defined.

(** ** More on language codes *)

Lemma lower_char_not_hyphen d :
  Ascii.eqb "-" d = false → Ascii.eqb "-" (Py.lower_char d) = false.
Proof. destruct d as [[] [] [] [] [] [] [] []]; by vm_compute. Qed.

Lemma split_head_lower_no_hyphen s :
  Py.contains "-" (Py.lower (Py.split_head "-" s)) = false.
Proof.
  induction s as [|d s IH]; [done|]. cbn [Py.split_head].
  destruct (Ascii.eqb "-" d) eqn:Hd; [done|].
  cbn [Py.lower Py.contains]. by rewrite lower_char_not_hyphen, IH.
Qed.

Lemma root_no_hyphen lang_code :
  Py.contains "-" (_get_root_lang_code lang_code) = false.
Proof.
  unfold _get_root_lang_code.
  destruct (Py.contains "-" lang_code) eqn:H; [|done].
  apply split_head_lower_no_hyphen.
Qed.

Lemma plain_key_plain_code :
  map_Forall (λ k v, Py.contains "-" k = false → Py.contains "-" v = false)
    supported_language_map.
Proof. apply (bool_decide_unpack _). by vm_compute. Qed.

(** X19. The root of a code never has a hyphen, so taking the root of a
    root changes nothing; and the source language that an operation hands
    to the service never carries a region: whatever source code the caller
    gives, the mapped source code has no hyphen. *)
Theorem source_language_has_no_region s :
  Py.contains "-" (_get_root_lang_code s) = false ∧
  _get_root_lang_code (_get_root_lang_code s) = _get_root_lang_code s ∧
  ∀ mapped, map_source_lang s = Returned (Some mapped) →
            Py.contains "-" mapped = false.
Proof.
  pose proof (root_no_hyphen s) as Hroot. split; [done|]. split.
  - unfold _get_root_lang_code at 1. by rewrite Hroot.
  - intros mapped. unfold map_source_lang, _map_language_code.
    destruct (negb _); [|done].
    destruct (supported_language_map !! _) as [v|] eqn:Hv; [|done].
    intros [= <-]. by apply (plain_key_plain_code _ v Hv).
Qed.

Lemma source_language_has_no_region_witness :
  Py.contains "-" "EN" = false.
Proof.
  exact (proj2 (proj2 (source_language_has_no_region "en-GB")) "EN"
           ltac:(by vm_compute)).
Defined.

Lemma mapped_code_same_letters :
  map_Forall (λ k v, Py.lower v = Py.lower k) supported_language_map.
Proof. apply (bool_decide_unpack _). by vm_compute. Qed.

(** X20. The table changes the letter case of a code and nothing else: a
    code that [_map_language_code] accepts is mapped to a code that is
    equal to it up to case.  So the target code that is sent is, up to
    case, the code the caller gave or else its root, and the source code
    that is sent is, up to case, the root of the code the caller gave: "en"
    is sent as "EN", and no region is added to a code that has none. *)
Theorem mapping_keeps_the_code lang_code mapped :
  (_map_language_code lang_code = Returned mapped →
     Py.lower mapped = Py.lower lang_code) ∧
  (map_target_lang lang_code = Returned mapped →
     Py.lower mapped = Py.lower lang_code ∨
     Py.lower mapped = Py.lower (_get_root_lang_code lang_code)) ∧
  (map_source_lang lang_code = Returned (Some mapped) →
     Py.lower mapped = Py.lower (_get_root_lang_code lang_code)).
Proof.
  assert (∀ k m, _map_language_code k = Returned m → Py.lower m = Py.lower k)
    as Hmap.
  { intros k m. unfold _map_language_code.
    destruct (supported_language_map !! k) as [v|] eqn:Hv; [|done].
    intros [= <-]. by apply (mapped_code_same_letters _ v Hv). }
  split; [apply Hmap|]. split.
  - unfold map_target_lang.
    destruct (_map_language_code lang_code) as [m|e] eqn:Hm.
    + intros [= <-]. left. by apply Hmap.
    + destruct e; try done. intros H. right. by apply Hmap.
  - unfold map_source_lang. destruct (negb _); [|done].
    destruct (_map_language_code _) as [m|e] eqn:Hm; [|done].
    intros [= <-]. by apply Hmap.
Qed.

Lemma mapping_keeps_the_code_witness :
  Py.lower "EN" = Py.lower "en".
Proof.
  exact (proj1 (mapping_keeps_the_code "en" "EN") ltac:(by vm_compute)).
Defined.

(** ** The shape of every response *)

Lemma translate_cases R text s t w :
  ∃ r w', translate R text s t w = (Returned r, w') ∧ answers s t text r.
Proof.
  assert (∀ e w', ∃ r w'',
    (match e with
     | DeepLException _ =>
         ret (error_response s t text ("DeepL API error: " +:+ str_exn e))
     | _ => ret (error_response s t text (str_exn e))
     end) w' = (Returned r, w'') ∧ answers s t text r) as Hhandler
    by (intros e w'; destruct e; eexists _, _; (split; [done|constructor])).
  unfold translate, try_except.
  destruct (negb _); [eexists _, _; split; [done|constructor]|].
  destruct (_ <? _)%N; [eexists _, _; split; [done|constructor]|].
  unfold bind at 1, lift at 1.
  destruct (map_source_lang s) as [sm|e]; [|apply Hhandler].
  unfold bind at 1, lift at 1.
  destruct (map_target_lang t) as [tm|e]; [|apply Hhandler].
  unfold bind at 1.
  destruct (client R w) as [[c|e] w1]; [|apply Hhandler].
  unfold bind at 1, remote_call at 1.
  destruct (translate_text R c _ sm tm) as [[r|rs]|e];
    [eexists _, _; split; [done|constructor]
    |eexists _, _; split; [done|constructor]|apply Hhandler].
Qed.

Lemma translate_async_cases R text s t w :
  ∃ r w', translate_async R text s t w = (Returned r, w') ∧ answers s t text r.
Proof.
  assert (∀ e w', ∃ r w'',
    (match e with
     | ClientError _ =>
         ret (error_response s t text ("DeepL API error: " +:+ str_exn e))
     | _ => ret (error_response s t text (str_exn e))
     end) w' = (Returned r, w'') ∧ answers s t text r) as Hhandler
    by (intros e w'; destruct e; eexists _, _; (split; [done|constructor])).
  unfold translate_async, try_except.
  destruct (negb _); [eexists _, _; split; [done|constructor]|].
  destruct (_ <? _)%N; [eexists _, _; split; [done|constructor]|].
  unfold bind at 1, lift at 1.
  destruct (map_source_lang s) as [sm|e]; [|apply Hhandler].
  unfold bind at 1, lift at 1.
  destruct (map_target_lang t) as [tm|e]; [|apply Hhandler].
  unfold bind at 1. rewrite post_translate_run.
  destruct (session_post R _ _ _ _) as [result|e]; [|apply Hhandler].
  unfold bind at 1, lift at 1.
  destruct (get_translations result) as [[|tr all]|e];
    [eexists _, _; split; [done|constructor]| |apply Hhandler].
  destruct (tr_text tr); eexists _, _; (split; [done|constructor]).
Qed.

Lemma answers_well_formed s t text r :
  answers s t text r → well_formed_response s t text r.
Proof.
  intros []; unfold well_formed_response; simpl; repeat split; eauto.
Qed.

(** X21. No response is filled in half.  Every response of the four
    translate operations carries the source and target codes as the caller
    gave them (not the mapped ones) and a [char_count] that is 0 or the
    length of its input text.  An ERROR response has a message, an empty
    translated text, no metadata and the length of its text; a SUCCESS
    response has no message, and either no metadata, an empty text and
    count 0, or metadata whose billed characters equal its [char_count],
    the length of the text.  A batch has one such response per text. *)
Theorem responses_well_formed R text texts s t w :
  (∃ r w', translate R text s t w = (Returned r, w') ∧
     well_formed_response s t text r) ∧
  (∃ r w', translate_async R text s t w = (Returned r, w') ∧
     well_formed_response s t text r) ∧
  (∃ rs w', bulk_translate R texts s t w = (Returned rs, w') ∧
     Forall2 (well_formed_response s t) texts rs) ∧
  (∃ rs w', bulk_translate_async R texts s t w = (Returned rs, w') ∧
     Forall2 (well_formed_response s t) texts rs).
Proof.
  assert (∀ rs,
    (∃ message, rs = bulk_error_responses s t message texts) ∨
    (∃ results, rs = in_order_responses s t texts results) →
    Forall2 (well_formed_response s t) texts rs) as Hbatch.
  { intros rs [Hlen Hat]%batch_shape.
    apply Forall2_same_length_lookup. split; [done|].
    intros i text' r Htext Hr. destruct (Hat i text' Htext) as (r' & Hr' & Ha).
    rewrite Hr in Hr'. injection Hr' as <-. by apply answers_well_formed. }
  split; [|split; [|split]].
  - destruct (translate_cases R text s t w) as (r & w' & Hrun & Ha).
    exists r, w'. split; [done|]. by apply answers_well_formed.
  - destruct (translate_async_cases R text s t w) as (r & w' & Hrun & Ha).
    exists r, w'. split; [done|]. by apply answers_well_formed.
  - destruct (bulk_translate_cases R texts s t w) as (rs & w' & Hrun & Hshape).
    exists rs, w'. split; [done|]. by apply Hbatch.
  - destruct (bulk_translate_async_cases R texts s t w) as (rs & w' & Hrun & Hshape).
    exists rs, w'. split; [done|]. by apply Hbatch.
Qed.

(** ** A batch of one text *)

Lemma translate_run R text s t w :
  is_sent text = true →
  (max_chunk_size <? Py.len text)%N = false →
  translate R text s t w
  = match map_source_lang s with
    | Raised e => (Returned (error_response s t text (sync_error_message e)), w)
    | Returned sm =>
        match map_target_lang t with
        | Raised e => (Returned (error_response s t text (sync_error_message e)), w)
        | Returned tm =>
            match client R w with
            | (Raised e, w1) =>
                (Returned (error_response s t text (sync_error_message e)), w1)
            | (Returned c, w1) =>
                (Returned
                   match translate_text R c (OneText text) sm tm with
                   | Returned (OneResult r) =>
                       success_response s t (result_text r)
                         (sdk_detected_lang r s) text
                   | Returned (ResultList _) =>
                       error_response s t text
                         "'list' object has no attribute 'detected_source_lang'"
                   | Raised e => error_response s t text (sync_error_message e)
                   end,
                 {| self := self w1;
                    wire := wire w1 ++ [CallTranslateText c (OneText text) sm tm] |})
            end
        end
    end.
Proof.
  intros Hs Hlen. unfold translate, try_except. fold (is_sent text).
  rewrite Hs, Hlen. cbn [negb]. unfold bind at 1, lift at 1.
  destruct (map_source_lang s) as [sm|e]; [|by destruct e].
  unfold bind at 1, lift at 1.
  destruct (map_target_lang t) as [tm|e]; [|by destruct e].
  unfold bind at 1.
  destruct (client R w) as [[c|e] w1]; [|by destruct e].
  unfold bind at 1, remote_call at 1.
  destruct (translate_text R c _ sm tm) as [[r|rs]|e]; [done|done|by destruct e].
Qed.

Lemma bulk_translate_run R texts s t w :
  filter is_sent texts ≠ [] →
  bulk_translate R texts s t w
  = match map_source_lang s with
    | Raised e => (Returned (bulk_error_responses s t (sync_error_message e) texts), w)
    | Returned sm =>
        match map_target_lang t with
        | Raised e =>
            (Returned (bulk_error_responses s t (sync_error_message e) texts), w)
        | Returned tm =>
            match client R w with
            | (Raised e, w1) =>
                (Returned (bulk_error_responses s t (sync_error_message e) texts), w1)
            | (Returned c, w1) =>
                (Returned
                   match translate_text R c (TextList (filter is_sent texts)) sm tm with
                   | Raised e =>
                       bulk_error_responses s t (sync_error_message e) texts
                   | Returned results =>
                       match scatter_outcome
                               (λ r text,
                                  Returned (success_response s t (sdk_view s r).1
                                              (sdk_view s r).2 text))
                               0 texts (as_list results) with
                       | Returned placed => fill_empty s t placed
                       | Raised e =>
                           bulk_error_responses s t (sync_error_message e) texts
                       end
                   end,
                 {| self := self w1;
                    wire := wire w1 ++ [CallTranslateText c
                                          (TextList (filter is_sent texts)) sm tm] |})
            end
        end
    end.
Proof.
  intros Hsome. unfold bulk_translate.
  destruct (decide (texts = [])) as [->|Hne]; [done|].
  unfold try_except. rewrite collect_valid_spec.
  rewrite decide_False by done.
  unfold bind at 1, lift at 1.
  destruct (map_source_lang s) as [sm|e]; [|by destruct e].
  unfold bind at 1, lift at 1.
  destruct (map_target_lang t) as [tm|e]; [|by destruct e].
  unfold bind at 1.
  destruct (client R w) as [[c|e] w1]; [|by destruct e].
  unfold bind at 1, remote_call at 1.
  destruct (translate_text R c _ sm tm) as [results|e]; [|by destruct e].
  unfold bind at 1, lift at 1.
  rewrite (scatter_collected _ (λ r text, Returned
             (success_response s t (sdk_view s r).1 (sdk_view s r).2 text)))
    by (intros; by apply sdk_response_build).
  change (match results with ResultList rs => rs | OneResult r => [r] end)
    with (as_list results).
  match goal with
  | |- context [scatter_outcome ?mk 0 texts ?rs] =>
      destruct (scatter_outcome mk 0 texts rs) as [placed|e]
  end; [done | by destruct e].
Qed.

(** X22. A batch of one text is answered like the text alone.  For a text
    within the limit of 30,000 characters, when the vendor library answers
    one text and the list of that one text in the same way,
    [bulk_translate] on the one-text batch returns the one response that
    [translate] returns for the text, and both leave the adapter in the
    same state. *)
Theorem one_text_batch_is_translate R text s t w :
  (Py.len text ≤ 30000)%N →
  (∀ c sm tm, same_answer (translate_text R c (OneText text) sm tm)
                          (translate_text R c (TextList [text]) sm tm)) →
  ∃ r, (translate R text s t w).1 = Returned r ∧
       (bulk_translate R [text] s t w).1 = Returned [r] ∧
       self (bulk_translate R [text] s t w).2 = self (translate R text s t w).2.
Proof.
  intros Hlen%N.ltb_ge Hsame. change 30000%N with max_chunk_size in Hlen.
  destruct (is_sent text) eqn:Hs.
  - assert (filter is_sent [text] = [text]) as Hf
      by (by rewrite filter_cons_True by (by apply Is_true_true_2)).
    rewrite (translate_run R text s t w Hs Hlen).
    rewrite (bulk_translate_run R [text] s t w) by (by rewrite Hf).
    rewrite Hf.
    destruct (map_source_lang s) as [sm|e]; [|by eexists].
    destruct (map_target_lang t) as [tm|e]; [|by eexists].
    destruct (client R w) as [[c|e] w1]; [|by eexists].
    specialize (Hsame c sm tm). cbn [fst snd self].
    destruct (translate_text R c (OneText text) sm tm) as [[r|rs]|e],
      (translate_text R c (TextList [text]) sm tm) as [[r'|[|r' []]]|e'];
      try done; simpl in Hsame; subst; [|by eexists].
    eexists. split; [done|]. split; [|done].
    cbn [as_list scatter_outcome]. by rewrite Hs.
  - assert (Py.whitespace_only text = true) as Hw.
    { rewrite is_sent_whitespace_only in Hs. by destruct (Py.whitespace_only text). }
    rewrite translate_blank by done.
    unfold bulk_translate, try_except. rewrite decide_False by done.
    rewrite collect_valid_spec.
    rewrite filter_cons_False by (by apply Is_true_false_2).
    rewrite filter_nil, decide_True by done. by eexists.
Qed.

Lemma one_text_batch_is_translate_witness :
  ∃ r, (translate echo_remote "Hello" "en" "es" (start free_config)).1
       = Returned r ∧
       (bulk_translate echo_remote ["Hello"] "en" "es" (start free_config)).1
       = Returned [r].
Proof.
  destruct (one_text_batch_is_translate echo_remote "Hello" "en" "es"
              (start free_config) ltac:(by vm_compute) ltac:(by intros))
    as (r & H1 & H2 & _).
  by exists r.
Defined.

(** ** Batches: what is returned, in every outcome *)

Lemma json_scatter_outcome s t texts : ∀ k all,
  match json_scatter_fault (length (filter is_sent texts)) k all with
  | Some e =>
      scatter_outcome
        (λ tr text,
           match tr_text tr with
           | Some translated =>
               Returned (success_response s t translated
                           (json_detected_lang tr s) text)
           | None => Raised (KeyError (Py.repr "text"))
           end) k texts all = Raised e
  | None =>
      ∃ placed,
        scatter_outcome
          (λ tr text,
             match tr_text tr with
             | Some translated =>
                 Returned (success_response s t translated
                             (json_detected_lang tr s) text)
             | None => Raised (KeyError (Py.repr "text"))
             end) k texts all = Returned placed
  end.
Proof.
  induction texts as [|text ts IH]; intros k all; cbn [scatter_outcome].
  - destruct all; simpl; eauto.
  - destruct (is_sent text) eqn:Ht.
    + rewrite filter_cons_True by (by apply Is_true_true_2).
      destruct all as [|tr rest]; simpl; [eauto|].
      destruct (tr_text tr); [|done].
      specialize (IH (S k) rest).
      destruct (json_scatter_fault _ _ _); [by rewrite IH|].
      destruct IH as [placed ->]. eauto.
    + rewrite filter_cons_False by (by apply Is_true_false_2).
      specialize (IH k all).
      destruct (json_scatter_fault _ _ _); [by rewrite IH|].
      destruct IH as [placed ->]. eauto.
Qed.

Lemma in_order_responses_all_blank s t texts results :
  filter is_sent texts = [] →
  in_order_responses s t texts results
  = (λ _, _create_response "" s t 0 None None) <$> texts.
Proof.
  induction texts as [|text ts IH]; [done|]. simpl.
  destruct (is_sent text) eqn:Ht.
  - by rewrite filter_cons_True by (by apply Is_true_true_2).
  - rewrite filter_cons_False by (by apply Is_true_false_2).
    intros Hts. by rewrite IH.
Qed.

Lemma bulk_translate_result R texts s t w :
  (bulk_translate R texts s t w).1
  = Returned (batch_responses s t texts (sync_batch_fault R texts s t w)
                (sync_batch_results R texts s t w)).
Proof.
  unfold sync_batch_fault, sync_batch_results, batch_responses.
  destruct (decide (filter is_sent texts = [])) as [Hnone|Hsome].
  - rewrite in_order_responses_all_blank by done.
    unfold bulk_translate. destruct (decide (texts = [])) as [->|Hne]; [done|].
    unfold try_except. rewrite collect_valid_spec. by rewrite decide_True.
  - rewrite bulk_translate_run by done.
    destruct (map_source_lang s) as [sm|e]; [|done].
    destruct (map_target_lang t) as [tm|e]; [|done].
    destruct (client R w) as [[c|e] w1]; [|done].
    destruct (translate_text R c _ sm tm) as [results|e]; [|done].
    cbn [fst]. f_equal.
    destruct (decide (length (as_list results) ≤ length (filter is_sent texts)))
      as [Hle|Hgt].
    + destruct (scatter_outcome_total
                  (λ r text, Returned (success_response s t (sdk_view s r).1
                                         (sdk_view s r).2 text))
                  ltac:(eauto) texts 0 (as_list results) Hle)
        as [placed Hplaced].
      rewrite Hplaced.
      eapply fill_scatter_outcome; [|exact Hplaced]. by intros r text b [= <-].
    + by rewrite scatter_outcome_too_many by (eauto || lia).
Qed.

Lemma bulk_translate_async_result R texts s t w :
  (bulk_translate_async R texts s t w).1
  = Returned (batch_responses s t texts (async_batch_fault R texts s t w)
                (async_batch_results R texts s t w)).
Proof.
  unfold async_batch_fault, async_batch_results, async_batch_answer,
    batch_responses.
  destruct (decide (filter is_sent texts = [])) as [Hnone|Hsome].
  - rewrite in_order_responses_all_blank by done.
    unfold bulk_translate_async. destruct (decide (texts = [])) as [->|Hne]; [done|].
    unfold try_except. rewrite collect_valid_spec. by rewrite decide_True.
  - destruct (map_source_lang s) as [sm|e] eqn:Hsm.
    2:{ unfold bulk_translate_async.
        destruct (decide (texts = [])) as [->|Hne]; [done|].
        unfold try_except. rewrite collect_valid_spec.
        rewrite decide_False by done. unfold bind at 1, lift at 1.
        rewrite Hsm. by destruct e. }
    destruct (map_target_lang t) as [tm|e] eqn:Htm.
    2:{ unfold bulk_translate_async.
        destruct (decide (texts = [])) as [->|Hne]; [done|].
        unfold try_except. rewrite collect_valid_spec.
        rewrite decide_False by done. unfold bind at 1, lift at 1.
        rewrite Hsm. unfold bind at 1, lift at 1. rewrite Htm. by destruct e. }
    rewrite (bulk_translate_async_sent_run R texts s t w sm tm) by done.
    destruct (session_post R _ _ _ _) as [body|e]; [|done].
    destruct (translations body) as [all|]; [|done].
    cbn [fst default]. f_equal.
    pose proof (json_scatter_outcome s t texts 0 all) as Hloop.
    destruct (json_scatter_fault _ _ _) as [e|]; simpl.
    + by rewrite Hloop.
    + destruct Hloop as [placed Hplaced]. rewrite Hplaced.
      eapply (fill_scatter_outcome _ (json_view s)); [|exact Hplaced].
      intros r text b. unfold json_view. by destruct (tr_text r); intros [= <-].
Qed.

(** C1. [bulk_translate] and [bulk_translate_async] always return, and in
    every outcome the list they return has the length of the input list and
    keeps the input order.  After a fault (a transport failure, for one)
    the response at every position is the error response for the text at
    that position.  Otherwise a blank text has the empty response at its
    position, and a text that was sent has at its position the response
    built from the result that the service returned at the rank of the
    text among the texts sent: the results go, in the order of the
    service, to the texts sent, in the order of the input. *)
Theorem bulk_translate_length_and_order R texts s t w :
  (bulk_translate R texts s t w).1
    = Returned (batch_responses s t texts (sync_batch_fault R texts s t w)
                  (sync_batch_results R texts s t w)) ∧
  (bulk_translate_async R texts s t w).1
    = Returned (batch_responses s t texts (async_batch_fault R texts s t w)
                  (async_batch_results R texts s t w)) ∧
  (∀ fault results,
     length (batch_responses s t texts fault results) = length texts) ∧
  (∀ fault results i text, texts !! i = Some text →
     batch_responses s t texts fault results !! i
     = Some match fault with
            | Some message => _create_response "" s t (Py.len text) None (Some message)
            | None =>
                if Py.whitespace_only text
                then _create_response "" s t 0 None None
                else
                  match results !! length (filter is_sent (take i texts)) with
                  | Some (translated, detected) =>
                      success_response s t translated detected text
                  | None => _create_response "" s t 0 None None
                  end
            end).
Proof.
  split; [apply bulk_translate_result|].
  split; [apply bulk_translate_async_result|]. split.
  - intros [message|] results; simpl.
    + unfold bulk_error_responses. by rewrite length_fmap.
    + apply length_in_order_responses.
  - intros [message|] results i text Hi; simpl.
    + by rewrite (bulk_error_responses_lookup _ _ _ _ _ _ Hi).
    + rewrite (in_order_responses_lookup _ _ _ _ _ _ Hi).
      rewrite is_sent_whitespace_only.
      by destruct (Py.whitespace_only text).
Qed.

Lemma bulk_translate_length_and_order_witness :
  (bulk_translate echo_remote ["Hello"; ""; "Wor"] "en" "es" (start free_config)).1
    = Returned [ success_response "en" "es" "<Hello>" "en" "Hello";
                 empty_response "en" "es";
                 success_response "en" "es" "<Wor>" "en" "Wor" ] ∧
  batch_responses "en" "es" ["Hello"; ""; "Wor"] None
    [("<Hello>", "en"); ("<Wor>", "en")] !! 2
    = Some (success_response "en" "es" "<Wor>" "en" "Wor").
Proof.
  destruct (bulk_translate_length_and_order echo_remote ["Hello"; ""; "Wor"]
              "en" "es" (start free_config)) as (Hsync & _ & _ & Hat).
  split.
  - rewrite Hsync. by vm_compute.
  - exact (Hat None [("<Hello>", "en"); ("<Wor>", "en")] 2 "Wor" eq_refl).
Defined.

(** ** Blank texts in every operation *)

(** C2 (as amended). A blank text given to [translate] or [translate_async]
    is answered with the empty SUCCESS response ([char_count] 0, empty
    translated text) and the world is left as it was.  In a batch, the
    response at the position of a blank text is that empty response in
    every run without a fault: always when the batch has no text to send,
    and when the codes map, the vendor client is at hand and the service
    answers with no more results than texts were sent (for the async
    operation: with translations that have their text).  Only a fault of
    the batch (a code that does not map, a client that cannot be created,
    a transport failure, an answer that is malformed or too long) gives the
    blank text an ERROR response, with the message of the fault and the
    length of the text. *)
Theorem blank_text_response R text s t w :
  Py.whitespace_only text = true →
  (status (empty_response s t) = SUCCESS ∧
   translated_text (empty_response s t) = "" ∧
   char_count (empty_response s t) = 0%N) ∧
  translate R text s t w = (Returned (empty_response s t), w) ∧
  translate_async R text s t w = (Returned (empty_response s t), w) ∧
  (∀ texts i, texts !! i = Some text →
     (∃ rs, (bulk_translate R texts s t w).1 = Returned rs ∧
        rs !! i
        = Some match sync_batch_fault R texts s t w with
               | None => empty_response s t
               | Some message => error_response s t text message
               end) ∧
     (∃ rs, (bulk_translate_async R texts s t w).1 = Returned rs ∧
        rs !! i
        = Some match async_batch_fault R texts s t w with
               | None => empty_response s t
               | Some message => error_response s t text message
               end)) ∧
  (∀ texts, filter is_sent texts = [] →
     sync_batch_fault R texts s t w = None ∧
     async_batch_fault R texts s t w = None) ∧
  (∀ texts sm tm,
     map_source_lang s = Returned sm →
     map_target_lang t = Returned tm →
     (∀ c w1 results,
        client R w = (Returned c, w1) →
        translate_text R c (TextList (filter is_sent texts)) sm tm
          = Returned results →
        length (as_list results) ≤ length (filter is_sent texts) →
        sync_batch_fault R texts s t w = None) ∧
     (∀ all,
        session_post R (base_url (self w) +:+ "/v2/translate")
          (_get_headers R (self w))
          {| data_text := filter is_sent texts; data_target_lang := tm;
             data_source_lang := sm |}
          (timeout (config (self w)))
          = Returned {| translations := Some all |} →
        Forall (λ tr, is_Some (tr_text tr)) all →
        length all ≤ length (filter is_sent texts) →
        async_batch_fault R texts s t w = None)).
Proof.
  intros Hw. split; [done|].
  split; [by apply translate_blank|]. split; [by apply translate_async_blank|].
  split; [|split].
  - intros texts i Hi. split.
    + rewrite bulk_translate_result. eexists. split; [done|].
      unfold batch_responses.
      destruct (sync_batch_fault R texts s t w) as [message|].
      * by apply bulk_error_responses_lookup.
      * by eapply in_order_responses_blank.
    + rewrite bulk_translate_async_result. eexists. split; [done|].
      unfold batch_responses.
      destruct (async_batch_fault R texts s t w) as [message|].
      * by apply bulk_error_responses_lookup.
      * by eapply in_order_responses_blank.
  - intros texts Hnone. unfold sync_batch_fault, async_batch_fault.
    by rewrite !decide_True.
  - intros texts sm tm Hsm Htm. split.
    + intros c w1 results Hc Hres Hlen. unfold sync_batch_fault.
      destruct (decide (filter is_sent texts = [])); [done|].
      rewrite Hsm, Htm, Hc, Hres. by rewrite decide_True.
    + intros all Hpost Htexts Hlen.
      unfold async_batch_fault, async_batch_answer.
      destruct (decide (filter is_sent texts = [])); [done|].
      rewrite Hsm, Htm, Hpost. cbn [translations].
      assert (∀ m j, length all ≤ m → json_scatter_fault m j all = None) as Hok.
      { clear Hpost Hlen. induction Htexts as [|tr rest [x Hx] _ IH];
          intros m j Hlen; [done|].
        simpl in Hlen. destruct m as [|m]; [lia|].
        cbn [json_scatter_fault]. rewrite Hx. apply IH. lia. }
      by rewrite Hok.
Qed.

Lemma blank_text_response_witness :
  ∃ rs, (bulk_translate echo_remote ["Hello"; "   "] "en" "es"
           (start free_config)).1 = Returned rs ∧
        rs !! 1 = Some (empty_response "en" "es").
Proof.
  destruct (blank_text_response echo_remote "   " "en" "es" (start free_config)
              eq_refl) as (_ & _ & _ & Hbatch & _ & Hhealthy).
  destruct (Hbatch ["Hello"; "   "] 1 eq_refl) as [(rs & Hrun & Hat) _].
  destruct (Hhealthy ["Hello"; "   "] (Some "EN") "ES"
              ltac:(by vm_compute) ltac:(by vm_compute)) as [Hsync _].
  rewrite (Hsync {| auth_key := "test-deepl-key:fx";
                    server_url := "https://api-free.deepl.com" |}
             {| self := {| config := free_config;
                           _client := Some {| auth_key := "test-deepl-key:fx";
                                              server_url := "https://api-free.deepl.com" |};
                           is_free_api := true;
                           base_url := "https://api-free.deepl.com" |};
                wire := [] |}
             (ResultList [echo_result "Hello"])
             eq_refl eq_refl ltac:(vm_compute; lia)) in Hat.
  by exists rs.
Defined.
